(** * InstantQR-UI: the optimisation loops of [app.py] and the helpers of
    [core/util.py], embedded in Rocq.

    The program drives a headless browser and a few remote services.  The
    embedding keeps the control flow of the Python source and makes every
    collaborator explicit:

    - pure helpers (string operations, the inventory filter, the URL
      normalisation of the replacement script) are Rocq functions;
    - the browser page, the file system and the list of calls made to the
      outside are fields of a state that is threaded through the run;
    - what the outside answers (HTTP statuses, agent outputs, time-outs) is
      read from a record of oracles, indexed by the iteration of the retry
      loop, so that a theorem quantified over the record covers every
      behaviour of the collaborators;
    - [while True] loops take fuel and return [None] when it runs out. *)

From Stdlib Require Import ZArith List String Ascii Bool Lia.
From Stdlib Require Import Sorting.Sorted Sorting.Permutation.
From Corelib Require Import SpecFloat.
From stdpp Require Import gmap strings.
Import ListNotations.

Local Open Scope string_scope.
Local Open Scope Z_scope.

(** ** Python and JavaScript string operations used by the source *)

Module Str.

(** [s.lower()] on ASCII letters. *)
Definition lower_ascii (c : ascii) : ascii :=
  let n := nat_of_ascii c in
  if (Nat.leb 65 n && Nat.leb n 90)%bool then ascii_of_nat (n + 32) else c.

Fixpoint lower (s : string) : string :=
  match s with
  | EmptyString => EmptyString
  | String c s' => String (lower_ascii c) (lower s')
  end.

(** [s[n:]] *)
Fixpoint drop (n : nat) (s : string) : string :=
  match n, s with
  | O, _ => s
  | S _, EmptyString => EmptyString
  | S n', String _ s' => drop n' s'
  end.

(** [s.endswith(suf)] *)
Definition endswith (s suf : string) : bool :=
  String.eqb (drop (String.length s - String.length suf) s) suf
  && Nat.leb (String.length suf) (String.length s).

(** [s.startswith(p)] *)
Definition startswith (s p : string) : bool := String.prefix p s.

(** [p in s] *)
Fixpoint contains (p s : string) : bool :=
  if String.prefix p s then true
  else match s with
       | EmptyString => false
       | String _ s' => contains p s'
       end.

(** JavaScript [s.replace(pat, rep)] with a string pattern: only the first
    occurrence of [pat] is replaced. *)
Fixpoint js_replace (pat rep s : string) : string :=
  if String.prefix pat s then rep +:+ drop (String.length pat) s
  else match s with
       | EmptyString => EmptyString
       | String c s' => String c (js_replace pat rep s')
       end.

(** Python [s.replace(old, new)]: every non-overlapping occurrence, scanning
    from the left.  [skip] counts the characters of a match still to be
    consumed. *)
Fixpoint py_replace_from (old new : string) (skip : nat) (s : string) : string :=
  match s with
  | EmptyString => EmptyString
  | String c s' =>
      match skip with
      | S k => py_replace_from old new k s'
      | O =>
          if String.prefix old s
          then new +:+ py_replace_from old new (String.length old - 1) s'
          else String c (py_replace_from old new O s')
      end
  end.

Fixpoint intersperse_all (new s : string) : string :=
  match s with
  | EmptyString => new
  | String c s' => new +:+ String c (intersperse_all new s')
  end.

Definition py_replace (old new s : string) : string :=
  match old with
  | EmptyString => intersperse_all new s
  | _ => py_replace_from old new O s
  end.

End Str.

(** [sep.join]-free helpers: [s.split(sep)] for a one-character separator,
    and the last path component ([os.path.basename] on POSIX paths). *)
Module PyStr.

Fixpoint split_on (sep : ascii) (s : string) : list string :=
  match s with
  | EmptyString => [EmptyString]
  | String c s' =>
      if Ascii.eqb c sep then EmptyString :: split_on sep s'
      else match split_on sep s' with
           | [] => [String c EmptyString]
           | hd :: tl => String c hd :: tl
           end
  end.

Definition basename (path : string) : string :=
  List.last (split_on "/"%char path) EmptyString.

(** [os.path.join(a, b)] of [posixpath]. *)
Definition path_join (a b : string) : string :=
  if Str.startswith b "/" then b
  else if (String.eqb a "" || Str.endswith a "/")%bool then a +:+ b
  else a +:+ "/" +:+ b.

(** [f"{x}"] for an [Optional[str]]. *)
Definition str_of_optional (x : option string) : string :=
  match x with
  | Some s => s
  | None => "None"
  end.

(** Truthiness of an [Optional[str]]: [None] and the empty string are false. *)
Definition truthy (x : option string) : bool :=
  match x with
  | Some s => negb (String.eqb s "")
  | None => false
  end.

Definition nl : string := String (ascii_of_nat 10) EmptyString.

End PyStr.

(** ** Python [int(h * 1.1)] on IEEE-754 binary64

    [viewport_height * 1.1] converts the integer to a double, multiplies by
    the double nearest to 1.1 with rounding to nearest even, and [int]
    truncates towards zero.  The operations are those of [SpecFloat]. *)
Module PyFloat.

Definition prec : Z := 53.
Definition emax : Z := 1024.

(** [float(n)] *)
Definition of_int (n : Z) : spec_float := binary_normalize prec emax n 0 false.

(** The literal [1.1]: 0x3FF199999999999A. *)
Definition one_point_one : spec_float :=
  S754_finite false 4953959590107546 (-52).

Definition mul (x y : spec_float) : spec_float := SFmul prec emax x y.

(** [int(x)]; [None] stands for the [OverflowError] / [ValueError] that
    Python raises on infinities and NaN. *)
Definition to_int (x : spec_float) : option Z :=
  match x with
  | S754_zero _ => Some 0
  | S754_finite s m e =>
      let v := if 0 <=? e then Z.pos m * 2 ^ e else Z.pos m / 2 ^ (- e) in
      Some (if s then - v else v)
  | S754_infinity _ | S754_nan => None
  end.

(** [int(h * 1.1)] *)
Definition scale_1_1 (h : Z) : option Z := to_int (mul (of_int h) one_point_one).

End PyFloat.

(** ** Data model ([core/model.py] and the dictionaries of [app.py]) *)

Record JSOutput := mkJSOutput {
  script : string;
  js_change_description : string
}.

Record Evaluation := mkEvaluation {
  feedback : string;
  score : string   (* Literal["pass", "fail"] *)
}.

Record ImageChange := mkImageChange {
  image_url : string;
  change_description : string
}.

(** An [<img>] element of the page: its [src] and [alt] attributes and its
    natural dimensions. *)
Record ImgElement := mkImg {
  img_src : option string;
  img_alt : option string;
  naturalWidth : Z;
  naturalHeight : Z
}.

(** An entry of [image_list]. *)
Record ImageInfo := mkImageInfo {
  src : string;
  alt : option string;
  width : Z;
  height : Z;
  size : Z
}.

(** The browser page.  Its DOM is represented by what determines it: the
    images it holds and the scripts evaluated on it so far, oldest first. *)
Record page_state := mkPage {
  viewport_width : Z;
  viewport_height : Z;
  imgs : list ImgElement;
  evaluated : list string
}.

(** A screenshot is represented by what it depicts. *)
Record screenshot := mkShot {
  full_page : bool;
  shot_of : page_state
}.

Inductive part :=
| input_text (t : string)
| input_image (image_url : string).

Inductive content :=
| Text (t : string)
| Parts (ps : list part).

(** Items of the conversation handed to [Runner.run]. *)
Inductive message :=
| User (c : content)
| CoderOutput (o : JSOutput).

(** Calls made to the collaborators, in the order they are made. *)
Inductive event :=
| ERunSpecialist (items : list message)
| ERunCoder (items : list message)
| ERunEvaluator (items : list message)
| EVerdict (e : Evaluation)
| EDownload (url : string)
| EImagesEdit (prompt : string)
| EMakedirs (path : string)
| EWrite (path : string) (data : string)
| EAppend (path : string) (text : string)
| EUpload (path : string)
| EGithubGet (api_url : string)
| EGithubPut (api_url : string)
| EPageEvaluate (js : string)
| ESetViewport (w h : Z)
| EScreenshot (s : screenshot)
| EBrowserClose.

(** What a collaborator answers: a value or an exception. *)
Inductive reply (A : Type) : Type :=
| Returns (a : A)
| Raises (e : string).
Arguments Returns {A} a.
Arguments Raises {A} e.

(** The collaborators.  Oracles that are consulted inside a retry loop take
    the iteration number, so that their answers may change between
    attempts. *)
Record World := mkWorld {
  (* Python standard library *)
  urljoin : string -> string -> string;
  netloc : string -> string;                 (* urlparse(url).netloc *)
  uuid4 : nat -> string;
  (* process environment *)
  GITHUB_TOKEN : option string;
  GITHUB_REPO : option string;
  (* the browser *)
  loaded_imgs : list ImgElement;              (* the <img> elements after page.goto *)
  text_elements : string;                     (* get_text_elements, rendered *)
  png_of : screenshot -> string;              (* the bytes of a screenshot, base64 *)
  js_href : string -> reply string;           (* new URL(s, window.location.href).href *)
  js_throws : list string -> string -> bool;  (* does page.evaluate(script) raise *)
  settles : nat -> page_state -> reply unit;  (* the waits after a replacement:
                                                 network idle, the selector, img.complete *)
  (* the network *)
  head_status : string -> reply Z;            (* requests.head *)
  download : nat -> string -> reply (Z * string);           (* requests.get(image_url) *)
  github_get : nat -> string -> reply (Z * option string);  (* status, json['sha'] *)
  github_put : nat -> string -> option string -> string -> reply Z;
  (* the imaging and model services *)
  to_png : nat -> string -> reply string;     (* Image.open(...).save(..., 'PNG') *)
  images_edit : nat -> string -> string -> reply string;
  image_specialist : list message -> reply (option ImageChange);
  image_evaluator : nat -> list message -> reply Evaluation;
  coder : nat -> list message -> reply JSOutput;
  evaluator : nat -> list message -> reply Evaluation
}.

(** ** A state and exception monad for the runs *)

Inductive outcome (A : Type) : Type :=
| Done (a : A)          (* the code reaches the end of the block *)
| Exception (e : string) (* a Python exception propagates *)
| OutOfFuel.            (* the loop was cut by the fuel *)
Arguments Done {A} a.
Arguments Exception {A} e.
Arguments OutOfFuel {A}.

Inductive flow := Continue | Break.

Section Monad.
Context {L : Type}.

(** What a run can change: the files under [sites/], the page, the list of
    calls made so far (oldest first) and the local variables [L] that
    survive an exception. *)
Record state := mkState {
  fs : gmap string string;
  page : page_state;
  trace : list event;
  locals : L
}.

Definition M (A : Type) : Type := state -> outcome A * state.

Definition ret {A} (a : A) : M A := fun st => (Done a, st).

Definition bind {A B} (m : M A) (k : A -> M B) : M B :=
  fun st =>
    match m st with
    | (Done a, st') => k a st'
    | (Exception e, st') => (Exception e, st')
    | (OutOfFuel, st') => (OutOfFuel, st')
    end.

Definition raise {A} (e : string) : M A := fun st => (Exception e, st).

Definition out_of_fuel {A} : M A := fun st => (OutOfFuel, st).

(** [try: m except Exception as e: h e] *)
Definition try_except {A} (m : M A) (h : string -> M A) : M A :=
  fun st =>
    match m st with
    | (Exception e, st') => h e st'
    | r => r
    end.

Definition call {A} (r : reply A) : M A :=
  match r with
  | Returns a => ret a
  | Raises e => raise e
  end.

Definition emit (ev : event) : M unit :=
  fun st => (Done tt, mkState (fs st) (page st) (trace st ++ [ev]) (locals st)).

Definition get_page : M page_state := fun st => (Done (page st), st).

Definition set_page (p : page_state) : M unit :=
  fun st => (Done tt, mkState (fs st) p (trace st) (locals st)).

Definition get_locals : M L := fun st => (Done (locals st), st).

Definition update_locals (f : L -> L) : M unit :=
  fun st => (Done tt, mkState (fs st) (page st) (trace st) (f (locals st))).

Definition get_fs : M (gmap string string) := fun st => (Done (fs st), st).

Definition set_fs (m : gmap string string) : M unit :=
  fun st => (Done tt, mkState m (page st) (trace st) (locals st)).

(** [while True: body], cut after [fuel] iterations; [i] numbers them. *)
Fixpoint while_true (fuel : nat) (body : nat -> M flow) (i : nat) : M unit :=
  match fuel with
  | O => out_of_fuel
  | S fuel' =>
      bind (body i) (fun fl =>
        match fl with
        | Break => ret tt
        | Continue => while_true fuel' body (S i)
        end)
  end.
End Monad.
Arguments state L : clear implicits.
Arguments M L A : clear implicits.

Declare Scope run_scope.
Delimit Scope run_scope with run.
Notation "x <- m ;; k" := (bind m (fun x => k))
  (at level 100, m at next level, right associativity) : run_scope.
Notation "m ;;; k" := (bind m (fun _ => k))
  (at level 100, right associativity) : run_scope.

(** ** [core/util.py] *)

Module Util.
Section Util.
Context {L : Type}.
Variable w : World.
Local Open Scope run_scope.

(** [is_image_accessible]: a [RequestException] counts as inaccessible. *)
Definition is_image_accessible (url : string) : bool :=
  match head_status w url with
  | Returns status_code => status_code =? 200
  | Raises _ => false
  end.

(** [open(path, 'w').write(data)] (also ['wb']) *)
Definition write_file (path data : string) : M L unit :=
  files <- get_fs ;;
  set_fs (<[path := data]> files) ;;;
  emit (EWrite path data).

(** [open(path, 'a').write(text)]: an absent file is created. *)
Definition append_file (path text : string) : M L unit :=
  files <- get_fs ;;
  set_fs (<[path := default "" (files !! path) +:+ text]> files) ;;;
  emit (EAppend path text).

(** [page.set_viewport_size] *)
Definition set_viewport_size (vw vh : Z) : M L unit :=
  p <- get_page ;;
  set_page (mkPage vw vh (imgs p) (evaluated p)) ;;;
  emit (ESetViewport vw vh).

(** [page.screenshot(full_page=...)], base64-encoded *)
Definition page_screenshot (full : bool) : M L string :=
  p <- get_page ;;
  emit (EScreenshot (mkShot full p)) ;;;
  ret (png_of w (mkShot full p)).

(** [page.evaluate(script)] for a script of the coder. *)
Definition page_evaluate (js : string) : M L unit :=
  p <- get_page ;;
  emit (EPageEvaluate js) ;;;
  if js_throws w (evaluated p) js then raise "playwright Error"
  else set_page (mkPage (viewport_width p) (viewport_height p) (imgs p)
                        (evaluated p ++ [js])).

(** [int(viewport_height * 1.1)] *)
Definition grow_height (viewport_height : Z) : M L Z :=
  match PyFloat.scale_1_1 viewport_height with
  | Some h => ret h
  | None => raise "OverflowError"
  end.

Definition take_viewport_screenshot : M L string :=
  p <- get_page ;;
  h <- grow_height (viewport_height p) ;;
  set_viewport_size (viewport_width p) h ;;;
  page_screenshot false.

Definition get_past_changes (site_folder : option string) : M L string :=
  if negb (PyStr.truthy site_folder) then ret ""
  else
    let log_file := PyStr.str_of_optional site_folder +:+ "/log.txt" in
    files <- get_fs ;;
    ret (default "" (files !! log_file)).

Definition get_site_folder (url : string) : M L string :=
  let domain := netloc w url in
  let domain := Str.py_replace "www." "" domain in
  let folder_name := "sites/" +:+ domain in
  emit (EMakedirs folder_name) ;;;
  ret folder_name.

(** The tail of [upload_to_github] inside its second [try]. *)
Definition put_and_build_url (i : nat) (api_url file_name : string)
    (repo_name : option string) (branch : string)
    (sha : option string) (content_b64 : string) : M L (option string) :=
  emit (EGithubPut api_url) ;;;
  status_code <- call (github_put w i api_url sha content_b64) ;;
  if (status_code =? 201) || (status_code =? 200) then
    match repo_name with
    | None => raise "AttributeError"
    | Some rn =>
        match PyStr.split_on "/"%char rn with
        | [owner; repo] =>
            ret (Some ("https://raw.githubusercontent.com/" +:+ owner +:+ "/"
                       +:+ repo +:+ "/" +:+ branch +:+ "/" +:+ file_name))
        | _ => raise "ValueError"
        end
    end
  else ret None.

Definition upload_to_github (i : nat) (file_path : string)
    (repo_name : option string) : M L (option string) :=
  let branch := "main" in
  emit (EUpload file_path) ;;;
  if negb (PyStr.truthy (GITHUB_TOKEN w)) then ret None
  else
    files <- get_fs ;;
    match files !! file_path with
    | None => raise "FileNotFoundError"
    | Some content_b64 =>
        let file_name := PyStr.basename file_path in
        let api_url := "https://api.github.com/repos/"
                       +:+ PyStr.str_of_optional repo_name
                       +:+ "/contents/" +:+ file_name in
        emit (EGithubGet api_url) ;;;
        let sha :=
          match github_get w i api_url with
          | Returns (status_code, Some sha) =>
              if status_code =? 200 then Some sha else None
          | _ => None
          end in
        let sha := if PyStr.truthy sha then sha else None in
        try_except
          (put_and_build_url i api_url file_name repo_name branch sha content_b64)
          (fun _ => ret None)
    end.

End Util.
End Util.

(** ** [process_image_optimization] *)

Module ImageOpt.

(** The variables of the function that are read after the loop through
    [locals()]: [None] means not bound. *)
Record img_locals := mkImgLocals {
  input_items : list message;
  new_image_url : option (option string);
  screenshot_base64 : option string;
  js_code : option string;
  result : option Evaluation
}.

Definition no_locals : img_locals := mkImgLocals [] None None None None.

(** The dictionary returned at the end of the function. *)
Record ImageResult := mkImageResult {
  image_specialist_response : string;
  original_image_url : string;
  res_new_image_url : option string;
  res_screenshot : option string;
  res_js_code : option string;
  evaluator_response : option string
}.

Section Inventory.
Variable w : World.
Variable url : string.

(** One turn of [for img in images]. *)
Definition collect_step (image_list : list ImageInfo) (img : ImgElement)
    : list ImageInfo :=
  match img_src img with
  | Some s =>
      if negb (String.eqb s "") && negb (Str.endswith (Str.lower s) ".svg") then
        let absolute_src := urljoin w url s in
        if negb (Util.is_image_accessible w absolute_src) then image_list
        else
          let width := naturalWidth img in
          let height := naturalHeight img in
          if (300 <? width) && (300 <? height) then
            image_list ++ [mkImageInfo absolute_src (img_alt img) width height
                                       (width * height)]
          else image_list
      else image_list
  | None => image_list
  end.

Definition collect_images (images : list ImgElement) : list ImageInfo :=
  fold_left collect_step images [].

(** [image_list.sort(key=lambda x: x['size'], reverse=True)]: a stable sort,
    larger sizes first; entries of equal size keep their order. *)
Fixpoint insert_by_size (x : ImageInfo) (l : list ImageInfo) : list ImageInfo :=
  match l with
  | [] => [x]
  | y :: l' =>
      if size y <? size x then x :: y :: l' else y :: insert_by_size x l'
  end.

Definition sort_by_size (l : list ImageInfo) : list ImageInfo :=
  fold_left (fun sorted x => insert_by_size x sorted) l [].

(** [image_list] as handed to the image specialist. *)
Definition image_inventory (images : list ImgElement) : list ImageInfo :=
  firstn 10 (sort_by_size (collect_images images)).
End Inventory.

(** The replacement script and what it does to the page. *)
Section Replacement.
Variable w : World.

Definition render_js_code (image_url : string) (new_image_url : option string)
    : string :=
  PyStr.nl +:+ "const targetUrl = new URL('" +:+ image_url
  +:+ "', window.location.href).href;" +:+ PyStr.nl
  +:+ "const imgs = document.getElementsByTagName('img');" +:+ PyStr.nl
  +:+ "for (const img of imgs) {" +:+ PyStr.nl
  +:+ "    const imgUrl = new URL(img.src, window.location.href).href;" +:+ PyStr.nl
  +:+ "    // Normalize URLs by removing 'www.' for comparison" +:+ PyStr.nl
  +:+ "    const normalizedTargetUrl = targetUrl.replace('www.', '');" +:+ PyStr.nl
  +:+ "    const normalizedImgUrl = imgUrl.replace('www.', '');" +:+ PyStr.nl
  +:+ "    if (normalizedImgUrl === normalizedTargetUrl) {" +:+ PyStr.nl
  +:+ "        img.src = '" +:+ PyStr.str_of_optional new_image_url +:+ "';" +:+ PyStr.nl
  +:+ "        break;" +:+ PyStr.nl
  +:+ "    }" +:+ PyStr.nl
  +:+ "}" +:+ PyStr.nl
  +:+ "                ".

(** [x.replace('www.', '')] in the script. *)
Definition normalize_url (u : string) : string := Str.js_replace "www." "" u.

(** The [img.src] property: the attribute resolved against the document,
    the attribute itself when it does not resolve, empty when absent. *)
Definition src_property (img : ImgElement) : string :=
  match img_src img with
  | None => ""
  | Some s => match js_href w s with
              | Returns h => h
              | Raises _ => s
              end
  end.

(** [for (const img of imgs)]: the first image whose normalised URL equals
    the normalised target gets the new source. *)
Fixpoint replace_first_match (targetUrl new_src : string) (l : list ImgElement)
    : reply (list ImgElement) :=
  match l with
  | [] => Returns []
  | img :: rest =>
      match js_href w (src_property img) with
      | Raises e => Raises e
      | Returns imgUrl =>
          if String.eqb (normalize_url imgUrl) (normalize_url targetUrl) then
            Returns (mkImg (Some new_src) (img_alt img) (naturalWidth img)
                           (naturalHeight img) :: rest)
          else
            match replace_first_match targetUrl new_src rest with
            | Returns rest' => Returns (img :: rest')
            | Raises e => Raises e
            end
      end
  end.

Definition run_replacement (image_url : string) (new_image_url : option string)
    (p : page_state) : reply page_state :=
  match js_href w image_url with
  | Raises e => Raises e
  | Returns targetUrl =>
      match replace_first_match targetUrl
              (PyStr.str_of_optional new_image_url) (imgs p) with
      | Raises e => Raises e
      | Returns imgs' =>
          Returns (mkPage (viewport_width p) (viewport_height p) imgs'
                          (evaluated p ++ [render_js_code image_url new_image_url]))
      end
  end.
End Replacement.

Section Run.
Variable w : World.
Variable url : string.
Variable image_generation_prompt : string.
Local Open Scope run_scope.

Local Abbreviation M := (M img_locals).

Definition set_input_items (v : list message) : M unit :=
  update_locals (fun l => mkImgLocals v (new_image_url l) (screenshot_base64 l)
                                      (js_code l) (result l)).
Definition set_new_image_url (v : option string) : M unit :=
  update_locals (fun l => mkImgLocals (input_items l) (Some v) (screenshot_base64 l)
                                      (js_code l) (result l)).
Definition set_screenshot_base64 (v : string) : M unit :=
  update_locals (fun l => mkImgLocals (input_items l) (new_image_url l) (Some v)
                                      (js_code l) (result l)).
Definition set_js_code (v : string) : M unit :=
  update_locals (fun l => mkImgLocals (input_items l) (new_image_url l)
                                      (screenshot_base64 l) (Some v) (result l)).
Definition set_result (v : Evaluation) : M unit :=
  update_locals (fun l => mkImgLocals (input_items l) (new_image_url l)
                                      (screenshot_base64 l) (js_code l) (Some v)).

Definition append_item (m : message) : M unit :=
  l <- get_locals ;; set_input_items (input_items l ++ [m]).

(** The items handed to the image specialist. *)
Definition specialist_items (shot : string) (image_list : list ImageInfo)
    : list message :=
  [User (Parts (
     input_text (PyStr.nl +:+ "Among all of the images within this site, which image should we change and how should we change it for increasing the conversion rate of the entire website ? First, this is the entire site screenshot:" +:+ PyStr.nl +:+ "                    ")
     :: input_image ("data:image/jpeg;base64," +:+ shot)
     :: flat_map (fun image =>
          [input_text (PyStr.nl +:+ "                                This image url is: "
                       +:+ src image +:+ PyStr.nl +:+ "                                ");
           input_image (src image)]) image_list))].

Definition evaluation_request (change : ImageChange) : list message :=
  [User (Parts [input_text (PyStr.nl
     +:+ "The image has been changed according to the following description:" +:+ PyStr.nl
     +:+ change_description change +:+ PyStr.nl +:+ PyStr.nl
     +:+ "Please evaluate if the new image is visually correct and properly integrated into the page."
     +:+ PyStr.nl)])].

(** [page.evaluate(js_code)] for the replacement script. *)
Definition page_evaluate_replacement (image_url : string)
    (new_image_url : option string) : M unit :=
  p <- get_page ;;
  emit (EPageEvaluate (render_js_code image_url new_image_url)) ;;;
  p' <- call (run_replacement w image_url new_image_url p) ;;
  set_page p'.

(** The inner [try] block: wait, observe, evaluate, decide. *)
Definition observe_and_evaluate (change : ImageChange) (sites_dir : string)
    (i : nat) : M flow :=
  p <- get_page ;;
  call (settles w i p) ;;;
  shot <- Util.page_screenshot w true ;;
  let screenshot_path := PyStr.path_join sites_dir "after_replacement.png" in
  Util.write_file screenshot_path shot ;;;
  set_screenshot_base64 shot ;;;
  append_item (User (Parts [input_image ("data:image/jpeg;base64," +:+ shot)])) ;;;
  l <- get_locals ;;
  emit (ERunEvaluator (input_items l)) ;;;
  r <- call (image_evaluator w i (input_items l)) ;;
  emit (EVerdict r) ;;;
  set_result r ;;;
  if String.eqb (score r) "pass" then
    Util.append_file (sites_dir +:+ "/log.txt")
      ("- " +:+ change_description change +:+ PyStr.nl) ;;;
    ret Break
  else
    append_item (User (Text ("Feedback: " +:+ feedback r))) ;;;
    ret Continue.

(** The outer [try] block of one iteration. *)
Definition attempt (change : ImageChange) (sites_dir : string) (i : nat) : M flow :=
  let image_url := image_url change in
  emit (EDownload image_url) ;;;
  response <- call (download w i image_url) ;;
  let '(status_code, body) := response in
  if negb (status_code =? 200) then ret Break
  else
    png <- call (to_png w i body) ;;
    emit (EImagesEdit image_generation_prompt) ;;;
    image_bytes <- call (images_edit w i image_generation_prompt png) ;;
    let filename := PyStr.path_join sites_dir (uuid4 w i +:+ ".png") in
    Util.write_file filename image_bytes ;;;
    let repo_name := GITHUB_REPO w in
    new_url <- Util.upload_to_github w i filename repo_name ;;
    set_new_image_url new_url ;;;
    set_js_code (render_js_code image_url new_url) ;;;
    page_evaluate_replacement image_url new_url ;;;
    try_except (observe_and_evaluate change sites_dir i) (fun _ => ret Break).

(** The body of [while True]: every exception leaves the loop. *)
Definition iteration (change : ImageChange) (sites_dir : string) (i : nat) : M flow :=
  try_except (attempt change sites_dir i) (fun _ => ret Break).

Definition browser_close : M unit := emit EBrowserClose.

(** The function.  It returns [None] or a dictionary. *)
Definition process_image_optimization (fuel : nat) : M (option ImageResult) :=
  p <- get_page ;;
  let image_list := image_inventory w url (imgs p) in
  if (length image_list =? 0)%nat then
    browser_close ;;; ret None
  else
    shot <- Util.page_screenshot w true ;;
    set_screenshot_base64 shot ;;;
    emit (ERunSpecialist (specialist_items shot image_list)) ;;;
    image_specialist_result <-
      call (image_specialist w (specialist_items shot image_list)) ;;
    match image_specialist_result with
    | None => browser_close ;;; ret None
    | Some change =>
        let site_name := Str.py_replace "www." "" (netloc w url) in
        let sites_dir := PyStr.path_join (PyStr.path_join "sites" site_name) "img" in
        emit (EMakedirs sites_dir) ;;;
        set_input_items (evaluation_request change) ;;;
        while_true fuel (iteration change sites_dir) O ;;;
        browser_close ;;;
        l <- get_locals ;;
        ret (Some (mkImageResult
               (change_description change)
               (image_url change)
               (match new_image_url l with Some v => v | None => None end)
               (screenshot_base64 l)
               (js_code l)
               (match result l with Some r => Some (feedback r) | None => None end)))
    end.

(** The state in which the function starts: the page as the browser loaded
    it in a 1920 x 800 viewport, and nothing called yet. *)
Definition initial_state (files : gmap string string) : state img_locals :=
  mkState files (mkPage 1920 800 (loaded_imgs w) []) [] no_locals.

Definition run (fuel : nat) (files : gmap string string)
    : outcome (option ImageResult) * state img_locals :=
  process_image_optimization fuel (initial_state files).
End Run.

End ImageOpt.

(** ** [process_text_optimization] *)

Module TextOpt.

Record txt_locals := mkTxtLocals {
  input_items : list message;
  coder_result : option JSOutput;
  result : option Evaluation;
  final_screenshot : option string
}.

Definition no_locals : txt_locals := mkTxtLocals [] None None None.

(** The dictionary returned at the end of the function. *)
Record TextResult := mkTextResult {
  coder_response : string;
  evaluator_response : string;
  res_screenshot : string;
  res_script : string
}.

Section Run.
Variable w : World.
Variable url : string.
Local Open Scope run_scope.

Local Abbreviation M := (M txt_locals).

Definition set_input_items (v : list message) : M unit :=
  update_locals (fun l => mkTxtLocals v (coder_result l) (result l) (final_screenshot l)).
Definition set_coder_result (v : JSOutput) : M unit :=
  update_locals (fun l => mkTxtLocals (input_items l) (Some v) (result l) (final_screenshot l)).
Definition set_result (v : Evaluation) : M unit :=
  update_locals (fun l => mkTxtLocals (input_items l) (coder_result l) (Some v) (final_screenshot l)).
Definition set_final_screenshot (v : string) : M unit :=
  update_locals (fun l => mkTxtLocals (input_items l) (coder_result l) (result l) (Some v)).

Definition append_item (m : message) : M unit :=
  l <- get_locals ;; set_input_items (input_items l ++ [m]).

Definition first_request (past_changes elements base64_image : string)
    : list message :=
  [User (Text (PyStr.nl
     +:+ "# Overview" +:+ PyStr.nl
     +:+ "Based on the screenshot, please generate a single change for one specific header or button of a webpage, with the goal of increasing conversion rate while preserving the original tone, meaning, and visual layout." +:+ PyStr.nl
     +:+ PyStr.nl
     +:+ "# Past changes - do not repeat the same change, can be same selector but different text:" +:+ PyStr.nl
     +:+ past_changes +:+ PyStr.nl
     +:+ PyStr.nl
     +:+ "# Text elements selectors:" +:+ PyStr.nl
     +:+ elements +:+ PyStr.nl));
   User (Parts [input_image ("data:image/jpeg;base64," +:+ base64_image)])].

Definition result_request (base64_image : string) : message :=
  User (Parts [
    input_text "The result screenshot is below. Please analyze the change and give suggestions on how to improve it visually. Also check if the change is still working as expected.";
    input_image ("data:image/jpeg;base64," +:+ base64_image)]).

(** The body of [while True]; no exception is caught here. *)
Definition iteration (site_folder : string) (i : nat) : M flow :=
  l <- get_locals ;;
  emit (ERunCoder (input_items l)) ;;;
  out <- call (coder w i (input_items l)) ;;
  set_coder_result out ;;;
  Util.write_file (site_folder +:+ "/script.js") (script out) ;;;
  (* coder_result.to_input_list(): the input followed by the new output *)
  set_input_items (input_items l ++ [CoderOutput out]) ;;;
  Util.page_evaluate w (script out) ;;;
  base64_image <- Util.take_viewport_screenshot w ;;
  append_item (result_request base64_image) ;;;
  l <- get_locals ;;
  emit (ERunEvaluator (input_items l)) ;;;
  r <- call (evaluator w i (input_items l)) ;;
  emit (EVerdict r) ;;;
  set_result r ;;;
  if String.eqb (score r) "pass" then
    Util.page_evaluate w (script out) ;;;
    shot <- Util.take_viewport_screenshot w ;;
    set_final_screenshot shot ;;;
    Util.append_file (site_folder +:+ "/log.txt")
      ("- " +:+ js_change_description out +:+ PyStr.nl) ;;;
    ret Break
  else
    append_item (User (Text ("Feedback: " +:+ feedback r))) ;;;
    ret Continue.

Definition browser_close : M unit := emit EBrowserClose.

Definition process_text_optimization (fuel : nat) : M TextResult :=
  site_folder <- Util.get_site_folder w url ;;
  (* Set viewport to 110% height *)
  p <- get_page ;;
  h <- Util.grow_height (viewport_height p) ;;
  Util.set_viewport_size (viewport_width p) h ;;;
  let elements := text_elements w in
  base64_image <- Util.take_viewport_screenshot w ;;
  past_changes <- Util.get_past_changes (Some site_folder) ;;
  set_input_items (first_request past_changes elements base64_image) ;;;
  while_true fuel (iteration site_folder) O ;;;
  browser_close ;;;
  l <- get_locals ;;
  match coder_result l, result l, final_screenshot l with
  | Some out, Some r, Some shot =>
      ret (mkTextResult (js_change_description out) (feedback r) shot (script out))
  | _, _, _ => raise "UnboundLocalError"
  end.

Definition initial_state (files : gmap string string) : state txt_locals :=
  mkState files (mkPage 1920 800 (loaded_imgs w) []) [] no_locals.

Definition run (fuel : nat) (files : gmap string string)
    : outcome TextResult * state txt_locals :=
  process_text_optimization fuel (initial_state files).
End Run.

End TextOpt.

(** ** [core/tool.py] *)

Module Tool.
Section Tool.
Context {L : Type}.
Variable w : World.
(** The value that [page.evaluate(script)] returns on a page. *)
Variable js_value : page_state -> string -> string.
Local Open Scope run_scope.


End Tool.
End Tool.

(** ** [main]: what the page asks for before it starts a run

    The rendering of the page and of the results is left out; what is kept
    is the control flow that leads to the two optimisations: the messages
    about the key and the URL, and the calls with their arguments. *)

Module Main.

Inductive ui :=
| SetEnv (name value : string)                 (* os.environ[name] = value *)
| StSuccess (msg : string)
| StWarning (msg : string)
| StError (msg : string)
| RunImageOptimization (url image_specialist_instructions image_generation_prompt
                        image_evaluator_instructions : string)
| RunTextOptimization (url coder_instructions evaluator_instructions : string).

(** The values of the widgets of one pass over the script. *)
Record widgets := mkWidgets {
  openai_api_key : string;
  url_input : string;
  image_specialist_instructions : string;
  image_generation_prompt : string;
  image_evaluator_instructions : string;
  coder_instructions : string;
  evaluator_instructions : string;
  image_button : bool;         (* st.button("Run Image Optimization", ...) *)
  text_button : bool           (* st.button("Run Text Optimization", ...) *)
}.

(** [if not url.startswith(("http://", "https://")): url = "https://" + url] *)
Definition with_scheme (url : string) : string :=
  if negb (Str.startswith url "http://" || Str.startswith url "https://")
  then "https://" +:+ url
  else url.

Definition main (v : widgets) : list ui :=
  let api_key_set := negb (String.eqb (openai_api_key v) "") in
  let sidebar :=
    if api_key_set
    then [SetEnv "OPENAI_API_KEY" (openai_api_key v);
          StSuccess "API key set successfully!"]
    else [StWarning "Please enter your OpenAI API key to use all features"] in
  if String.eqb (url_input v) "" then
    (sidebar ++ [StWarning "Please enter a website URL to begin optimization."])%list
  else
    let url := with_scheme (url_input v) in
    let tab1 :=
      if image_button v then
        if negb api_key_set
        then [StError "Please enter your OpenAI API key in the sidebar to use this feature."]
        else [RunImageOptimization url (image_specialist_instructions v)
                (image_generation_prompt v) (image_evaluator_instructions v)]
      else [] in
    let tab2 :=
      if text_button v then
        if negb api_key_set
        then [StError "Please enter your OpenAI API key in the sidebar to use this feature."]
        else [RunTextOptimization url (coder_instructions v) (evaluator_instructions v)]
      else [] in
    (sidebar ++ tab1 ++ tab2)%list.

(** The URL with which an optimisation is started. *)
Definition run_url (e : ui) : option string :=
  match e with
  | RunImageOptimization url _ _ _ | RunTextOptimization url _ _ => Some url
  | _ => None
  end.

End Main.

(** ** Definitions used to state the properties *)

Section InventorySpec.
Variable w : World.
Variable url : string.

(** Eligibility as the code decides it: a non-empty [src] attribute that,
    lower-cased, does not end with [.svg]; a [HEAD] request to the
    absolute URL answered with 200; both natural dimensions above 300. *)
Definition eligible (img : ImgElement) : bool :=
  match img_src img with
  | Some s =>
      negb (String.eqb s "") && negb (Str.endswith (Str.lower s) ".svg")
      && Util.is_image_accessible w (urljoin w url s)
      && (300 <? naturalWidth img) && (300 <? naturalHeight img)
  | None => false
  end.

(** Eligibility as the specification words it: the test for [.svg] is made
    on the absolute URL and is sensitive to case. *)
Definition eligible_as_specified (img : ImgElement) : bool :=
  match img_src img with
  | Some s =>
      (300 <? naturalWidth img) && (300 <? naturalHeight img)
      && negb (Str.endswith (urljoin w url s) ".svg")
      && match head_status w (urljoin w url s) with
         | Returns c => c =? 200
         | Raises _ => false
         end
  | None => false
  end.

Definition entry_of (img : ImgElement) : ImageInfo :=
  mkImageInfo (urljoin w url (default "" (img_src img))) (img_alt img)
              (naturalWidth img) (naturalHeight img)
              (naturalWidth img * naturalHeight img).

Definition by_size_desc (a b : ImageInfo) : Prop := size b <= size a.
End InventorySpec.

(** [c not in s] *)
Fixpoint lacks (c : ascii) (s : string) : bool :=
  match s with
  | EmptyString => true
  | String d s' => negb (Ascii.eqb d c) && lacks c s'
  end.

Definition is_upload_event (e : event) : bool :=
  match e with
  | EUpload _ | EGithubGet _ | EGithubPut _ => true
  | _ => false
  end.

(** Counting the calls of a kind in a trace. *)
Definition is_specialist_run (e : event) : bool :=
  match e with ERunSpecialist _ => true | _ => false end.

Definition is_coder_run (e : event) : bool :=
  match e with ERunCoder _ => true | _ => false end.

Definition is_verdict (e : event) : bool :=
  match e with EVerdict _ => true | _ => false end.

Definition is_fail_verdict (e : event) : bool :=
  match e with
  | EVerdict r => negb (String.eqb (score r) "pass")
  | _ => false
  end.

Definition is_log_line (e : event) : bool :=
  match e with EAppend _ _ => true | _ => false end.

(** The calls made inside the retry loop of the image run. *)
Definition is_loop_event (e : event) : bool :=
  match e with
  | EDownload _ | EImagesEdit _ | EUpload _ | EGithubGet _ | EGithubPut _
  | EPageEvaluate _ | ERunEvaluator _ | EVerdict _ | EAppend _ _ | EWrite _ _ => true
  | _ => false
  end.

Definition count (p : event -> bool) (t : list event) : nat :=
  length (List.filter p t).

(** A monitor for the order of verdicts and log lines.  [Idle]: the last
    call to an agent has not been answered by a usable verdict; [Passed]:
    the last answer of an agent is a verdict whose score is ["pass"];
    [Logged]: the line of the accepted change has been written. *)
Inductive phase := Idle | Passed | Logged.

Definition is_agent_event (e : event) : bool :=
  match e with
  | ERunSpecialist _ | ERunCoder _ | ERunEvaluator _ | EVerdict _ | EAppend _ _ => true
  | _ => false
  end.

(** The monitor refuses a log line outside [Passed], and after the log line
    it refuses everything but the closing of the browser. *)
Definition watch (ph : phase) (e : event) : option phase :=
  match ph, e with
  | Logged, EBrowserClose => Some Logged
  | Logged, _ => None
  | _, EVerdict r => Some (if String.eqb (score r) "pass" then Passed else Idle)
  | Passed, EAppend _ _ => Some Logged
  | Idle, EAppend _ _ => None
  | _, ERunSpecialist _ | _, ERunCoder _ | _, ERunEvaluator _ => Some Idle
  | _, _ => Some ph
  end.

Definition watch_from (ph : option phase) (t : list event) : option phase :=
  fold_left (fun o e => match o with Some p => watch p e | None => None end) t ph.

Definition watch_all (t : list event) : option phase := watch_from (Some Idle) t.

(** The line that an accepted change adds to the log. *)
Definition log_line (description : string) : string :=
  "- " +:+ description +:+ PyStr.nl.

(** The log of the text runs and the log of the image runs of a site. *)
Definition text_log (w : World) (url : string) : string :=
  ("sites/" +:+ Str.py_replace "www." "" (netloc w url)) +:+ "/log.txt".

Definition image_log (w : World) (url : string) : string :=
  PyStr.path_join
    (PyStr.path_join "sites" (Str.py_replace "www." "" (netloc w url))) "img"
  +:+ "/log.txt".

(** Text runs made one after the other on the same files, each with its own
    collaborators and fuel: the files at the end, and the lines of the runs
    that ended normally, in the order of the runs. *)
Fixpoint text_runs (url : string) (runs : list (World * nat))
    (files : gmap string string) : gmap string string * list string :=
  match runs with
  | [] => (files, [])
  | (w, fuel) :: rest =>
      let r := TextOpt.run w url fuel files in
      let '(files', lines) := text_runs url rest (fs (snd r)) in
      (files',
       match fst r with
       | Done res => log_line (TextOpt.coder_response res) :: lines
       | _ => lines
       end)
  end.

Fixpoint join_lines (lines : list string) : string :=
  match lines with
  | [] => ""
  | line :: rest => line +:+ join_lines rest
  end.

Fixpoint last_char (s : string) : option ascii :=
  match s with
  | EmptyString => None
  | String c EmptyString => Some c
  | String _ s' => last_char s'
  end.

(** The viewport heights at which the screenshots of a trace were taken. *)
Definition shot_heights (t : list event) : list Z :=
  flat_map (fun e => match e with
                     | EScreenshot s => [viewport_height (shot_of s)]
                     | _ => []
                     end) t.

(** The height after [n] resizes of a viewport that starts at 800. *)
Definition height_after (n : nat) : Z := Nat.iter n (fun h => 11 * h / 10) 800.

(** The first [n] resizes computed with the floating-point operations. *)
Definition heights_checked (n : nat) : bool :=
  forallb (fun k => match PyFloat.scale_1_1 (height_after k) with
                    | Some h => (h =? height_after (S k)) && (height_after k <? h)
                    | None => false
                    end) (seq 0 n).


(** What the monitor says of the trace of a state: followed so far, followed
    with no log line yet, followed up to the log line. *)
Definition watched {L : Type} (st : state L) : Prop :=
  exists ph, watch_all (trace st) = Some ph.

Definition unlogged {L : Type} (st : state L) : Prop :=
  exists ph, watch_all (trace st) = Some ph /\ ph <> Logged.

Definition logged {L : Type} (st : state L) : Prop :=
  watch_all (trace st) = Some Logged.

(** ** Further definitions used to state properties *)


(** An image after the script has given it a new source. *)
Definition with_src (new_src : string) (img : ImgElement) : ImgElement :=
  mkImg (Some new_src) (img_alt img) (naturalWidth img) (naturalHeight img).

(** [r] is the last verdict received in the trace. *)
Definition last_verdict (r : Evaluation) (t : list event) : Prop :=
  exists t1 t2, t = (t1 ++ EVerdict r :: t2)%list /\ count is_verdict t2 = 0%nat.

(** What holds of the variables of an image run while it is in its loop:
    the screenshot is bound, the script and the new URL are bound together
    and the script is the one rendered for that URL, and a verdict that is
    bound is the last one received. *)
Definition img_locals_ok (change : ImageChange) (st : state ImageOpt.img_locals)
    : Prop :=
  ImageOpt.screenshot_base64 (locals st) <> None
  /\ match ImageOpt.js_code (locals st), ImageOpt.new_image_url (locals st) with
     | None, None => True
     | Some js, Some u => js = ImageOpt.render_js_code (image_url change) u
     | _, _ => False
     end
  /\ match ImageOpt.result (locals st) with
     | Some r => last_verdict r (trace st)
     | None => count is_verdict (trace st) = 0%nat
     end.

Definition is_browser_close (e : event) : bool :=
  match e with EBrowserClose => true | _ => false end.

(** The files [g] are the files [f] with some of the files named by [P]
    written or rewritten: every other file is as it was, and no file has
    been removed. *)
Definition only_changes (P : string -> Prop) (f g : gmap string string) : Prop :=
  (forall path, ~ P path -> g !! path = f !! path)
  /\ (forall path, is_Some (f !! path) -> is_Some (g !! path)).


(** The files that an image run may write. *)
Definition image_run_files (w : World) (sites_dir : string) (path : string) : Prop :=
  (exists i, path = PyStr.path_join sites_dir (uuid4 w i +:+ ".png"))
  \/ path = PyStr.path_join sites_dir "after_replacement.png"
  \/ path = sites_dir +:+ "/log.txt".

(** The state in which the loop of a text run ends normally: the last
    proposal has been evaluated twice on the page, it is the content of
    [script.js], the last verdict passes it, and the final screenshot shows
    the page as it is. *)
Definition accepted (w : World) (site_folder : string)
    (st : state TextOpt.txt_locals) : Prop :=
  exists out verdict,
    TextOpt.coder_result (locals st) = Some out
    /\ TextOpt.result (locals st) = Some verdict
    /\ score verdict = "pass"
    /\ TextOpt.final_screenshot (locals st)
       = Some (png_of w (mkShot false (page st)))
    /\ fs st !! (site_folder +:+ "/script.js") = Some (script out)
    /\ (exists earlier,
          evaluated (page st) = (earlier ++ [script out; script out])%list)
    /\ last_verdict verdict (trace st).

(** The conversation handed to an agent by a call of the trace. *)
Definition agent_input (e : event) : option (list message) :=
  match e with
  | ERunSpecialist items | ERunCoder items | ERunEvaluator items => Some items
  | _ => None
  end.

(** Every call to an agent in [t] is given the conversation of the call
    before it ([prev] for the first one) with further messages at its end. *)
Fixpoint growing (prev : list message) (t : list event) : Prop :=
  match t with
  | [] => True
  | e :: t' =>
      match agent_input e with
      | Some items => (exists more, items = (prev ++ more)%list) /\ growing items t'
      | None => growing prev t'
      end
  end.

(** The conversation of the last call to an agent in [t]. *)
Definition last_input (prev : list message) (t : list event) : list message :=
  fold_left (fun p e => match agent_input e with Some items => items | None => p end)
            t prev.

(** What holds of the conversation at the head of an iteration of the loop
    of a text run: the calls made so far have only extended it, and the
    variable [input_items] extends the conversation of the last call. *)
Definition conversation_ok (st : state TextOpt.txt_locals) : Prop :=
  growing [] (trace st)
  /\ exists more,
       TextOpt.input_items (locals st) = (last_input [] (trace st) ++ more)%list.

(** The calls that leave the viewport alone: no resize, and only full-page
    screenshots of a page in a 1920 x 800 viewport. *)
Definition keeps_viewport (e : event) : bool :=
  match e with
  | ESetViewport _ _ => false
  | EScreenshot s =>
      full_page s && (viewport_width (shot_of s) =? 1920)
      && (viewport_height (shot_of s) =? 800)
  | _ => true
  end.

(** The page of an image run while it is in its loop. *)
Definition image_page_ok (n : nat) (st : state ImageOpt.img_locals) : Prop :=
  viewport_width (page st) = 1920
  /\ viewport_height (page st) = 800
  /\ length (imgs (page st)) = n
  /\ forallb keeps_viewport (trace st) = true.

(** The images of a request, in the order of its parts. *)
Definition image_parts (ps : list part) : list string :=
  flat_map (fun p => match p with input_image u => [u] | input_text _ => [] end) ps.

Definition is_download (e : event) : bool :=
  match e with EDownload _ => true | _ => false end.

Definition is_generation (e : event) : bool :=
  match e with EImagesEdit _ => true | _ => false end.

(** The attempts of an image run counted in its trace: a download for each
    attempt, at most one generation for each download and at most one
    verdict for each generation. *)
Definition attempts_ok (t : list event) : Prop :=
  (count is_verdict t <= count is_generation t <= count is_download t)%nat.

(** The state of a text run at the head of iteration [i], when every
    earlier attempt has been answered and rejected: the scripts of the
    proposals [0 .. i-1] have been evaluated, each once, the viewport has
    been resized [2 + i] times, and there have been [i] calls to the coder
    and [i] verdicts. *)
Definition rejected_so_far (outs : nat -> JSOutput) (i : nat)
    (st : state TextOpt.txt_locals) : Prop :=
  viewport_height (page st) = height_after (2 + i)
  /\ evaluated (page st) = map (fun j => script (outs j)) (seq 0 i)
  /\ count is_coder_run (trace st) = i
  /\ count is_verdict (trace st) = i
  /\ count is_log_line (trace st) = 0%nat.

(** The state in which the loop of such a run ends when attempt [k] is the
    first one accepted. *)
Definition accepted_at (w : World) (outs : nat -> JSOutput)
    (verdicts : nat -> Evaluation) (k : nat) (st : state TextOpt.txt_locals) : Prop :=
  TextOpt.coder_result (locals st) = Some (outs k)
  /\ TextOpt.result (locals st) = Some (verdicts k)
  /\ TextOpt.final_screenshot (locals st) = Some (png_of w (mkShot false (page st)))
  /\ viewport_height (page st) = height_after (4 + k)
  /\ evaluated (page st)
     = (map (fun j => script (outs j)) (seq 0 (S k)) ++ [script (outs k)])%list
  /\ count is_coder_run (trace st) = S k
  /\ count is_verdict (trace st) = S k
  /\ count is_log_line (trace st) = 1%nat.



(** ** Worlds used to run the model on concrete inputs *)

Module Demo.

(** The text between [://] and the next [/]: what [urlparse(url).netloc] is
    for the plain [http(s)://host/path] URLs used below. *)
Fixpoint until_slash (s : string) : string :=
  match s with
  | EmptyString => EmptyString
  | String c s' => if Ascii.eqb c "/" then EmptyString else String c (until_slash s')
  end.

Fixpoint after_scheme (s : string) : string :=
  if String.prefix "://" s then Str.drop 3 s
  else match s with
       | EmptyString => EmptyString
       | String _ s' => after_scheme s'
       end.

Definition host_of (url : string) : string := until_slash (after_scheme url).

(** [urljoin(base, src)] for a [src] that is an absolute URL (returned as it
    is) or a path relative to a base that ends with a slash. *)
Definition join_url (base src : string) : string :=
  if Str.contains "://" src then src else base +:+ src.

Definition always {A B} (b : B) : A -> B := fun _ => b.

(** A world in which every service answers and succeeds; the arguments are
    the parts that the examples vary. *)
Definition world (token : option string) (page_imgs : list ImgElement)
    (head : string -> reply Z) (get : nat -> string -> reply (Z * string))
    (waits : nat -> page_state -> reply unit)
    (proposals : nat -> reply JSOutput)
    (verdicts : nat -> reply Evaluation) : World :=
  {| urljoin := join_url;
     netloc := host_of;
     uuid4 := fun i => "uuid-" +:+ String (ascii_of_nat (48 + i)) "";
     GITHUB_TOKEN := token;
     GITHUB_REPO := Some "acme/assets";
     loaded_imgs := page_imgs;
     text_elements := "[]";
     png_of := fun s => if full_page s then "full-page.png" else "viewport.png";
     js_href := fun s => Returns s;
     js_throws := fun _ _ => false;
     settles := waits;
     head_status := head;
     download := get;
     github_get := fun _ _ => Returns (404, None);
     github_put := fun _ _ _ _ => Returns 201;
     to_png := fun _ body => Returns body;
     images_edit := fun _ _ png => Returns ("edited:" +:+ png);
     image_specialist := fun items =>
       match items with
       | [User (Parts (_ :: _ :: _ :: input_image u :: _))] =>
           Returns (Some (mkImageChange u "Brighter hero image"))
       | _ => Returns None
       end;
     image_evaluator := fun i _ => verdicts i;
     coder := fun i _ => proposals i;
     evaluator := fun i _ => verdicts i |}.

Definition pass : Evaluation := mkEvaluation "Looks right." "pass".
Definition fail : Evaluation := mkEvaluation "The text is clipped." "fail".

Definition shop_url : string := "https://shop.example.com/".

Definition no_wait : nat -> page_state -> reply unit := fun _ _ => Raises "TimeoutError".
Definition no_proposal : nat -> reply JSOutput := fun _ => Raises "no coder in this run".
Definition all_200 : string -> reply Z := fun _ => Returns 200.
Definition get_200 : nat -> string -> reply (Z * string) := fun _ _ => Returns (200, "jpeg bytes").

(** A page whose only large image is served from a path in upper case. *)
Definition hero_SVG : ImgElement :=
  mkImg (Some "http://cdn.example.com/hero.SVG") (Some "hero") 1000 800.

Definition svg_world : World :=
  world (Some "token") [hero_SVG] all_200 get_200 no_wait no_proposal (fun _ => Returns pass).

(** The page of the specification's scenario: 500x500, 200x200, 1000x800. *)
Definition three_images : list ImgElement :=
  [mkImg (Some "a.png") None 500 500;
   mkImg (Some "b.png") None 200 200;
   mkImg (Some "c.png") None 1000 800].

Definition three_world : World :=
  world (Some "token") three_images all_200 get_200 no_wait no_proposal (fun _ => Returns pass).

(** A page whose hero image is referred to by its absolute URL. *)
Definition hero : ImgElement :=
  mkImg (Some "https://shop.example.com/hero.png") (Some "hero") 1000 800.

(** The image server answers 404 to the download. *)
Definition get_404 : nat -> string -> reply (Z * string) :=
  fun _ _ => Returns (404, "Not Found").

Definition world_404 : World :=
  world (Some "token") [hero] all_200 get_404 no_wait no_proposal (fun _ => Returns pass).

(** No [GITHUB_TOKEN] in the environment; everything else answers. *)
Definition world_no_token : World :=
  world None [hero] all_200 get_200 no_wait no_proposal (fun _ => Returns pass).

(** The coder proposes a new script at each attempt; the evaluator fails
    the first two and passes the third. *)
Definition three_proposals : nat -> JSOutput :=
  fun i =>
    mkJSOutput ("document.querySelector('h1').innerText = 'Offer "
                +:+ String (ascii_of_nat (49 + i)) "'")
               ("Headline, attempt " +:+ String (ascii_of_nat (49 + i)) "").

Definition fail_fail_pass_verdicts : nat -> Evaluation :=
  fun i => if Nat.ltb i 2 then fail else pass.

Definition world_fail_fail_pass : World :=
  world (Some "token") [hero] all_200 get_200 no_wait
        (fun i => Returns (three_proposals i))
        (fun i => Returns (fail_fail_pass_verdicts i)).

Definition www_shop_url : string := "https://www.shop.example.com/".

(** Every service answers, the new image shows up, the evaluator passes. *)
Definition world_accepting : World :=
  world (Some "token") [hero] all_200 get_200 (fun _ _ => Returns tt)
        (fun i => Returns (three_proposals i)) (fun _ => Returns pass).

(** A page without any image. *)
Definition world_no_image : World :=
  world (Some "token") [] all_200 get_200 no_wait no_proposal (fun _ => Returns pass).

End Demo.

(** * Properties *)

(** ** The image inventory *)

Section InventoryFacts.
Variable w : World.
Variable url : string.

Local Abbreviation eligible := (eligible w url).
Local Abbreviation entry_of := (entry_of w url).

Lemma collect_step_eligible acc img :
  ImageOpt.collect_step w url acc img
  = (acc ++ (if eligible img then [entry_of img] else []))%list.
Proof.
  unfold ImageOpt.collect_step, eligible, entry_of.
  destruct (img_src img) as [s|]; simpl; [|now rewrite app_nil_r].
  destruct (String.eqb s ""); simpl; [now rewrite app_nil_r|].
  destruct (Str.endswith (Str.lower s) ".svg"); simpl; [now rewrite app_nil_r|].
  destruct (Util.is_image_accessible w (urljoin w url s)); simpl;
    [|now rewrite app_nil_r].
  destruct (300 <? naturalWidth img); simpl; [|now rewrite app_nil_r].
  destruct (300 <? naturalHeight img); simpl; [reflexivity|now rewrite app_nil_r].
Qed.

Lemma collect_fold acc images :
  fold_left (ImageOpt.collect_step w url) images acc
  = (acc ++ map entry_of (List.filter eligible images))%list.
Proof.
  revert acc. induction images as [|img images IH]; intros acc; simpl.
  - now rewrite app_nil_r.
  - rewrite IH, collect_step_eligible.
    destruct (eligible img); simpl.
    + now rewrite <- app_assoc.
    + now rewrite app_nil_r.
Qed.

Lemma collect_images_filter images :
  ImageOpt.collect_images w url images = map entry_of (List.filter eligible images).
Proof. unfold ImageOpt.collect_images. now rewrite collect_fold. Qed.

Lemma insert_by_size_perm x l : Permutation (ImageOpt.insert_by_size x l) (x :: l).
Proof.
  induction l as [|y l IH]; simpl; [reflexivity|].
  destruct (size y <? size x); [reflexivity|].
  rewrite IH. apply perm_swap.
Qed.

Lemma sort_fold_perm l acc :
  Permutation (fold_left (fun sorted x => ImageOpt.insert_by_size x sorted) l acc)
              (acc ++ l)%list.
Proof.
  revert acc. induction l as [|x l IH]; intros acc; simpl.
  - now rewrite app_nil_r.
  - rewrite IH, insert_by_size_perm.
    change (x :: acc ++ l) with ((x :: acc) ++ l).
    rewrite (Permutation_middle acc l x). reflexivity.
Qed.

Lemma sort_by_size_perm l : Permutation (ImageOpt.sort_by_size l) l.
Proof. unfold ImageOpt.sort_by_size. now rewrite sort_fold_perm. Qed.

Lemma insert_by_size_sorted x l :
  StronglySorted by_size_desc l ->
  StronglySorted by_size_desc (ImageOpt.insert_by_size x l).
Proof.
  induction 1 as [|y l Hs IH Hy]; simpl.
  - constructor; [constructor|constructor].
  - destruct (size y <? size x) eqn:E.
    + apply Z.ltb_lt in E. constructor.
      * now constructor.
      * constructor; [unfold by_size_desc; lia|].
        eapply List.Forall_impl; [|exact Hy]. unfold by_size_desc. intros; lia.
    + apply Z.ltb_ge in E. constructor; [exact IH|].
      rewrite insert_by_size_perm.
      constructor; [exact E|exact Hy].
Qed.

Lemma sort_fold_sorted l acc :
  StronglySorted by_size_desc acc ->
  StronglySorted by_size_desc
    (fold_left (fun sorted x => ImageOpt.insert_by_size x sorted) l acc).
Proof.
  revert acc. induction l as [|x l IH]; intros acc Hacc; simpl; [exact Hacc|].
  apply IH. now apply insert_by_size_sorted.
Qed.

Lemma sort_by_size_sorted l : StronglySorted by_size_desc (ImageOpt.sort_by_size l).
Proof. apply sort_fold_sorted. constructor. Qed.

Lemma in_firstn_in (n : nat) (l : list ImageInfo) x : In x (firstn n l) -> In x l.
Proof.
  revert n. induction l as [|y l IH]; intros [|n]; simpl; try tauto.
  intros [->|H]; [now left|right; eauto].
Qed.

Lemma firstn_sorted (n : nat) (l : list ImageInfo) :
  StronglySorted by_size_desc l -> StronglySorted by_size_desc (firstn n l).
Proof.
  intros H. revert n. induction H as [|y l Hs IH Hy]; intros [|n]; simpl;
    try constructor.
  - apply IH.
  - apply List.Forall_forall. intros z Hz.
    rewrite List.Forall_forall in Hy. apply Hy. eapply in_firstn_in, Hz.
Qed.
Lemma sort_by_size_length l : length (ImageOpt.sort_by_size l) = length l.
Proof. apply Permutation_length, sort_by_size_perm. Qed.

(** C1 (amended): the inventory handed to the image specialist is the first
    ten entries of a ranking, by descending [width * height], of exactly the
    images that the code finds eligible: a non-empty [src] attribute whose
    lower-cased text does not end with [.svg], a [HEAD] request to the
    absolute URL answered with 200, and natural width and height both above
    300.  It has [min 10 (number of eligible images)] entries, every entry
    comes from an eligible image, and when at most ten images are eligible
    every one of them is in the inventory. *)
Theorem image_inventory_spec (images : list ImgElement) :
  let inventory := ImageOpt.image_inventory w url images in
  let candidates := map entry_of (List.filter eligible images) in
  (exists ranked,
      Permutation ranked candidates
      /\ StronglySorted by_size_desc ranked
      /\ inventory = firstn 10 ranked)
  /\ length inventory = Nat.min 10 (length (List.filter eligible images))
  /\ StronglySorted by_size_desc inventory
  /\ (forall e, In e inventory ->
        exists img, In img images /\ eligible img = true /\ e = entry_of img)
  /\ ((length (List.filter eligible images) <= 10)%nat ->
        forall img, In img images -> eligible img = true ->
                    In (entry_of img) inventory).
Proof.
  cbv zeta. unfold ImageOpt.image_inventory. rewrite collect_images_filter.
  set (candidates := map entry_of (List.filter eligible images)).
  assert (Hperm : Permutation (ImageOpt.sort_by_size candidates) candidates)
    by apply sort_by_size_perm.
  assert (Hsorted : StronglySorted by_size_desc (ImageOpt.sort_by_size candidates))
    by apply sort_by_size_sorted.
  split; [|split; [|split; [|split]]].
  - exists (ImageOpt.sort_by_size candidates). auto.
  - rewrite length_firstn, sort_by_size_length. unfold candidates.
    now rewrite length_map.
  - now apply firstn_sorted.
  - intros e He. apply in_firstn_in in He.
    apply (Permutation_in _ Hperm) in He. unfold candidates in He.
    apply in_map_iff in He. destruct He as (img & <- & Himg).
    apply filter_In in Himg. destruct Himg as [Hin Hel].
    exists img. auto.
  - intros Hle img Hin Hel.
    rewrite firstn_all2.
    + apply (Permutation_in _ (Permutation_sym Hperm)). unfold candidates.
      apply in_map. apply filter_In. auto.
    + rewrite sort_by_size_length. unfold candidates. now rewrite length_map.
Qed.
End InventoryFacts.

(** The scenario of the specification: three images of 500x500, 200x200 and
    1000x800 give the two entries 1000x800, 500x500 in this order. *)
Example inventory_three_images :
  map (fun e => (width e, height e))
      (ImageOpt.image_inventory Demo.three_world Demo.shop_url Demo.three_images)
  = [(1000, 800); (500, 500)].
Proof. reflexivity. Qed.

(** C1 as stated fails: an image of 1000x800 whose URL ends with [.SVG] in
    upper case answers 200 to [HEAD] and does not end with [.svg], so the
    stated condition holds for it, yet the code lower-cases the [src] before
    the test and leaves the image out: the inventory is empty, not of size
    [min 10 1]. *)
Lemma inventory_skips_uppercase_svg :
  In Demo.hero_SVG (loaded_imgs Demo.svg_world)
  /\ eligible_as_specified Demo.svg_world Demo.shop_url Demo.hero_SVG = true
  /\ ImageOpt.image_inventory Demo.svg_world Demo.shop_url
       (loaded_imgs Demo.svg_world) = []
  /\ length (ImageOpt.image_inventory Demo.svg_world Demo.shop_url
               (loaded_imgs Demo.svg_world))
     <> Nat.min 10 (length (List.filter
                              (eligible_as_specified Demo.svg_world Demo.shop_url)
                              (loaded_imgs Demo.svg_world))).
Proof.
  split; [now left|]. split; [reflexivity|]. split; [reflexivity|].
  vm_compute. discriminate.
Qed.

(** ** URL normalisation in the replacement script *)

Section ReplaceFacts.
Variables pat rep : string.

Lemma prefix_append r : String.prefix pat (pat +:+ r) = true.
Proof.
  induction pat as [|c q IH]; simpl; [now destruct r|].
  destruct (ascii_dec c c); [exact IH|congruence].
Qed.

Lemma drop_append r : Str.drop (String.length pat) (pat +:+ r) = r.
Proof. induction pat as [|c q IH]; simpl; [now destruct r|exact IH]. Qed.

Lemma contains_cons c s :
  Str.contains pat (String c s)
  = if String.prefix pat (String c s) then true else Str.contains pat s.
Proof. reflexivity. Qed.




End ReplaceFacts.



(** ** Reasoning about runs *)

(** The rule for [while True]: an invariant at the head of each iteration,
    and a postcondition for each way of leaving the loop. *)
Lemma while_true_rule {L : Type} (body : nat -> M L flow)
    (Inv : nat -> state L -> Prop) (Post : outcome unit -> state L -> Prop) :
  (forall i st, Inv i st ->
     match body i st with
     | (Done Continue, st') => Inv (S i) st'
     | (Done Break, st') => Post (Done tt) st'
     | (Exception e, st') => Post (Exception e) st'
     | (OutOfFuel, st') => Post OutOfFuel st'
     end) ->
  (forall i st, Inv i st -> Post OutOfFuel st) ->
  forall fuel i st, Inv i st ->
    Post (fst (while_true fuel body i st)) (snd (while_true fuel body i st)).
Proof.
  intros Hbody Hfuel. induction fuel as [|fuel IH]; intros i st Hinv; simpl.
  - eapply Hfuel, Hinv.
  - unfold bind. specialize (Hbody i st Hinv).
    destruct (body i st) as [[[|]| |] st']; simpl; auto.
Qed.

(** Unfolding of the monad and of the helpers of [core/util.py]. *)
Ltac norm_run :=
  cbv [TextOpt.iteration TextOpt.append_item TextOpt.set_input_items
       TextOpt.set_coder_result TextOpt.set_result TextOpt.set_final_screenshot
       TextOpt.browser_close
       ImageOpt.iteration ImageOpt.attempt ImageOpt.observe_and_evaluate
       ImageOpt.page_evaluate_replacement ImageOpt.append_item
       ImageOpt.set_input_items ImageOpt.set_new_image_url
       ImageOpt.set_screenshot_base64 ImageOpt.set_js_code ImageOpt.set_result
       ImageOpt.browser_close
       Util.write_file Util.append_file Util.page_evaluate
       Util.take_viewport_screenshot Util.grow_height Util.set_viewport_size
       Util.page_screenshot Util.get_past_changes Util.get_site_folder
       bind ret raise call emit try_except get_page set_page get_locals
       update_locals get_fs set_fs
       fst snd trace fs page locals
       TextOpt.input_items TextOpt.coder_result TextOpt.result
       TextOpt.final_screenshot
       ImageOpt.input_items ImageOpt.new_image_url ImageOpt.screenshot_base64
       ImageOpt.js_code ImageOpt.result
       viewport_height viewport_width imgs evaluated].

Ltac split_match :=
  match goal with
  | |- context [match ?x with _ => _ end] =>
      lazymatch x with
      | context [match _ with _ => _ end] => fail
      | _ => destruct x eqn:?
      end
  end.

(** Run a block symbolically: one goal per path through it. *)
Ltac exec := norm_run; repeat (split_match; norm_run).

(** ** [upload_to_github] *)

(** The upload touches neither the files, nor the page, nor the variables of
    the caller; it announces itself, talks to GitHub only, and without a
    token it returns [None] before any request. *)
Lemma upload_to_github_frame {L : Type} w i path repo (st : state L) :
  exists o d,
    Util.upload_to_github w i path repo st
    = (o, mkState (fs st) (page st) (trace st ++ EUpload path :: d) (locals st))
    /\ Forall (fun e => is_upload_event e = true) d
    /\ o <> OutOfFuel
    /\ (PyStr.truthy (GITHUB_TOKEN w) = false -> o = Done None /\ d = []).
Proof.
  destruct st as [f p t l].
  cbv [Util.upload_to_github Util.put_and_build_url bind ret raise call emit
       try_except get_fs fst snd trace fs page locals].
  repeat (split_match;
          cbv [bind ret raise call emit try_except get_fs fst snd trace fs
               page locals]).
  all: rewrite <- ?app_assoc; simpl app.
  all: do 2 eexists; split; [reflexivity|].
  all: split; [repeat constructor|].
  all: split; [discriminate|].
  all: intros Htok; try (rewrite Htok in *; discriminate); auto.
Qed.

(** ** The monitor *)

Lemma watch_from_None t : watch_from None t = None.
Proof. induction t as [|e t IH]; simpl; auto. Qed.

Lemma watch_from_app ph t1 t2 :
  watch_from ph (t1 ++ t2) = watch_from (watch_from ph t1) t2.
Proof. unfold watch_from. apply fold_left_app. Qed.

Lemma watch_all_snoc t e :
  watch_all (t ++ [e])
  = match watch_all t with Some p => watch p e | None => None end.
Proof. unfold watch_all. rewrite watch_from_app. reflexivity. Qed.

Lemma watch_logged_tail post ph :
  watch_from (Some Logged) post = Some ph -> Forall (eq EBrowserClose) post.
Proof.
  induction post as [|e post IH]; simpl; intros H; [constructor|].
  destruct e; simpl in H; try (rewrite watch_from_None in H; discriminate).
  constructor; auto.
Qed.

(** What acceptance by the monitor means for a log line of the trace: it
    follows a verdict with score ["pass"], no agent is called in between,
    and only the closing of the browser comes after it. *)
Lemma watch_from_sound pre : forall ph ph' path text post,
  watch_from (Some ph) (pre ++ EAppend path text :: post) = Some ph' ->
  ((ph = Passed /\ Forall (fun e => is_agent_event e = false) pre)
   \/ exists pre' r quiet,
        pre = (pre' ++ EVerdict r :: quiet)%list
        /\ score r = "pass"
        /\ Forall (fun e => is_agent_event e = false) quiet)
  /\ Forall (eq EBrowserClose) post.
Proof.
  induction pre as [|e pre IH]; intros ph ph' path text post H.
  - simpl in H. destruct ph; simpl in H;
      try (rewrite watch_from_None in H; discriminate).
    split; [left; split; [reflexivity|constructor]|].
    eapply watch_logged_tail, H.
  - change ((e :: pre) ++ EAppend path text :: post)%list
      with (e :: (pre ++ EAppend path text :: post))%list in H.
    simpl in H. destruct (watch ph e) as [ph1|] eqn:E;
      [|rewrite watch_from_None in H; discriminate].
    destruct (IH _ _ _ _ _ H) as [Hpre Hpost]. split; [|exact Hpost].
    destruct Hpre as [[-> Hq]|(pre' & r & quiet & -> & Hr & Hq)].
    + destruct e; destruct ph; simpl in E; try discriminate;
        try (injection E as E; try discriminate);
        try (left; split; [reflexivity|constructor; [reflexivity|exact Hq]]).
      all: right; exists [], e, pre; repeat split; auto;
        destruct (String.eqb (score e) "pass") eqn:Es; try discriminate;
        now apply String.eqb_eq.
    + right. exists (e :: pre'), r, quiet. auto.
Qed.

Lemma watch_all_sound t ph pre path text post :
  watch_all t = Some ph -> t = (pre ++ EAppend path text :: post)%list ->
  (exists pre' r quiet,
      pre = (pre' ++ EVerdict r :: quiet)%list
      /\ score r = "pass"
      /\ Forall (fun e => is_agent_event e = false) quiet)
  /\ Forall (eq EBrowserClose) post.
Proof.
  intros H ->. destruct (watch_from_sound _ _ _ _ _ _ H) as [[[E _]|Hpre] Hpost].
  - discriminate.
  - auto.
Qed.

(** ** Accepting only after a verdict of pass *)

Lemma unlogged_watched {L : Type} (st : state L) : unlogged st -> watched st.
Proof. intros (ph & H & _). now exists ph. Qed.

Lemma logged_watched {L : Type} (st : state L) : logged st -> watched st.
Proof. intros H. now exists Logged. Qed.

(** Closes a goal about the monitor after a symbolic run: the trace is the
    initial one followed by the events of the path taken. *)
Ltac watch_steps H :=
  unfold watched, unlogged, logged; cbv [trace];
  repeat rewrite watch_all_snoc; rewrite H; cbv [watch];
  repeat match goal with Hs : String.eqb _ _ = _ |- _ => rewrite Hs end;
  try reflexivity;
  try (eexists; split; [reflexivity|discriminate]);
  try (eexists; reflexivity).

Lemma text_iteration_watch w site_folder i (st : state TextOpt.txt_locals) :
  unlogged st ->
  match TextOpt.iteration w site_folder i st with
  | (Done Continue, st') => unlogged st'
  | (Done Break, st') => logged st'
  | (Exception _, st') => unlogged st'
  | (OutOfFuel, st') => unlogged st'
  end.
Proof.
  intros (ph & H & Hph). destruct st as [f p t l]. cbv [trace] in H.
  exec; destruct ph; try congruence; watch_steps H.
Qed.

Lemma text_loop_watch w site_folder fuel i (st : state TextOpt.txt_locals) :
  unlogged st ->
  match while_true fuel (TextOpt.iteration w site_folder) i st with
  | (Done _, st') => logged st'
  | (_, st') => unlogged st'
  end.
Proof.
  intros H.
  pose proof (while_true_rule (TextOpt.iteration w site_folder)
                (fun _ st => unlogged st)
                (fun o st => match o with Done _ => logged st | _ => unlogged st end))
    as R.
  specialize (R (fun i st Hst => ltac:(
    pose proof (text_iteration_watch w site_folder i st Hst) as T;
    destruct (TextOpt.iteration w site_folder i st) as [[[|]| |] st']; exact T))).
  specialize (R (fun _ st Hst => Hst) fuel i st H).
  destruct (while_true fuel (TextOpt.iteration w site_folder) i st) as [[] st'];
    exact R.
Qed.

Ltac norm_top :=
  cbv [TextOpt.run TextOpt.process_text_optimization TextOpt.initial_state
       TextOpt.no_locals TextOpt.set_input_items TextOpt.browser_close
       ImageOpt.run ImageOpt.process_image_optimization ImageOpt.initial_state
       ImageOpt.no_locals ImageOpt.set_input_items ImageOpt.set_screenshot_base64
       ImageOpt.browser_close
       Util.take_viewport_screenshot Util.grow_height Util.set_viewport_size
       Util.page_screenshot Util.get_past_changes Util.get_site_folder
       bind ret raise call emit get_page set_page get_locals
       update_locals get_fs set_fs
       fst snd trace fs page locals
       TextOpt.input_items TextOpt.coder_result TextOpt.result
       TextOpt.final_screenshot
       ImageOpt.input_items ImageOpt.new_image_url ImageOpt.screenshot_base64
       ImageOpt.js_code ImageOpt.result
       viewport_height viewport_width imgs evaluated].

Ltac split_match_hyp H :=
  match type of H with
  | context [match ?x with _ => _ end] =>
      lazymatch x with
      | context [match _ with _ => _ end] => fail
      | _ => destruct x eqn:?
      end
  end.

Ltac proj_all :=
  unfold unlogged, logged, watched in *; cbv [trace fs page locals] in *.

(** Brings in what is known of a loop whose result has been named. *)
Ltac text_loop lem :=
  match goal with
  | H : while_true ?f (TextOpt.iteration ?w ?sf) ?i ?st = _ |- _ =>
      let T := fresh "T" in
      assert (T : unlogged st) by (exists Idle; split; [reflexivity|discriminate]);
      apply (lem w sf f i) in T; rewrite H in T; clear H
  end.

Ltac image_loop lem :=
  match goal with
  | H : while_true ?f (ImageOpt.iteration ?w ?pr ?ch ?sd) ?i ?st = _ |- _ =>
      let T := fresh "T" in
      assert (T : unlogged st) by (exists Idle; split; [reflexivity|discriminate]);
      apply (lem w pr ch sd f i) in T; rewrite H in T; clear H
  end.

Ltac after_loop :=
  subst; proj_all;
  try (match goal with T : exists _, _ /\ _ |- _ =>
         let ph := fresh "ph" in let Hph := fresh "Hph" in
         destruct T as (ph & T & Hph) end);
  try (eexists; eassumption);
  try (rewrite watch_all_snoc;
       match goal with T : watch_all _ = Some _ |- _ => rewrite T end;
       first [ eexists; reflexivity
             | match goal with ph : phase |- _ =>
                 destruct ph; try congruence; eexists; reflexivity end ]).

Lemma text_run_watch w url fuel files :
  watched (snd (TextOpt.run w url fuel files)).
Proof.
  norm_top.
  repeat (split_match; norm_top).
  all: try (eexists; reflexivity).
  all: text_loop text_loop_watch.
  all: after_loop.
Qed.

Lemma watch_from_upload d ph :
  Forall (fun e => is_upload_event e = true) d -> ph <> Logged ->
  watch_from (Some ph) d = Some ph.
Proof.
  induction 1 as [|e d He Hd IH]; intros Hph; [reflexivity|].
  simpl. destruct e; try discriminate; destruct ph; try congruence; auto.
Qed.

Lemma watch_all_upload t path d :
  Forall (fun e => is_upload_event e = true) d ->
  watch_all (t ++ EUpload path :: d)
  = match watch_all t with
    | Some Logged => None
    | o => o
    end.
Proof.
  intros Hd. unfold watch_all. rewrite watch_from_app.
  destruct (watch_from (Some Idle) t) as [[]|]; simpl.
  - now apply watch_from_upload.
  - now apply watch_from_upload.
  - apply watch_from_None.
  - apply watch_from_None.
Qed.

(** Replaces a call to [upload_to_github] that has been named by what
    [upload_to_github_frame] says of it. *)
Ltac use_upload :=
  match goal with
  | H : Util.upload_to_github ?w ?i ?path ?repo ?st = (?o, ?s) |- _ =>
      let o' := fresh "o" in let d := fresh "d" in
      let E := fresh "E" in let Hd := fresh "Hd" in
      let Ho := fresh "Ho" in let Htok := fresh "Htok" in
      destruct (upload_to_github_frame w i path repo st)
        as (o' & d & E & Hd & Ho & Htok);
      rewrite H in E; inversion E; subst; clear H E;
      cbv [fs page trace locals] in *
  end.

Lemma image_iteration_watch w prompt change sites_dir i
    (st : state ImageOpt.img_locals) :
  unlogged st ->
  match ImageOpt.iteration w prompt change sites_dir i st with
  | (Done Continue, st') => unlogged st'
  | (Done Break, st') => watched st'
  | (Exception _, st') => False
  | (OutOfFuel, st') => False
  end.
Proof.
  intros (ph & H & Hph). destruct st as [f p t l]. cbv [trace] in H.
  exec.
  all: try use_upload.
  all: norm_run.
  all: try congruence.
  all: unfold watched, unlogged; norm_run.
  all: repeat rewrite watch_all_snoc.
  all: try rewrite (watch_all_upload _ _ _ Hd).
  all: repeat rewrite watch_all_snoc.
  all: rewrite H.
  all: destruct ph; try congruence.
  all: cbv [watch].
  all: repeat match goal with Hs : String.eqb _ _ = _ |- _ => rewrite Hs end.
  all: try (eexists; split; [reflexivity|discriminate]).
  all: try (eexists; reflexivity).
Qed.

Lemma image_loop_watch w prompt change sites_dir fuel i
    (st : state ImageOpt.img_locals) :
  unlogged st ->
  match while_true fuel (ImageOpt.iteration w prompt change sites_dir) i st with
  | (Exception _, st') => False
  | (_, st') => watched st'
  end.
Proof.
  intros H.
  pose proof (while_true_rule (ImageOpt.iteration w prompt change sites_dir)
                (fun _ st => unlogged st)
                (fun o st => match o with Exception _ => False | _ => watched st end))
    as R.
  specialize (R (fun i st Hst => ltac:(
    pose proof (image_iteration_watch w prompt change sites_dir i st Hst) as T;
    destruct (ImageOpt.iteration w prompt change sites_dir i st) as [[[|]| |] st'];
    solve [exact T | destruct T])) (fun _ st Hst => unlogged_watched st Hst)
    fuel i st H).
  destruct (while_true fuel (ImageOpt.iteration w prompt change sites_dir) i st)
    as [[] st']; exact R.
Qed.

Lemma image_run_watch w url prompt fuel files :
  watched (snd (ImageOpt.run w url prompt fuel files)).
Proof.
  norm_top.
  repeat (split_match; norm_top).
  all: try (eexists; reflexivity).
  all: match goal with
       | H : while_true ?f (ImageOpt.iteration ?w ?pr ?ch ?sd) ?i ?st = _ |- _ =>
           let T := fresh "T" in
           assert (T : unlogged st)
             by (exists Idle; split; [reflexivity|discriminate]);
           apply (image_loop_watch w pr ch sd f i) in T; rewrite H in T; clear H
       end.
  all: subst; proj_all; try contradiction.
  all: destruct T as (ph & T).
  all: try (eexists; exact T).
  all: rewrite watch_all_snoc, T; destruct ph; eexists; reflexivity.
Qed.

(** C2: in a text-optimisation run and in an image-optimisation run alike, a
    line is appended to the log only after a verdict whose score is exactly
    ["pass"], with no call to an agent and no other verdict in between (so
    never after a verdict of fail, never without a verdict); and after the
    line the run only closes the browser: the loop has ended. *)
Theorem accept_only_after_pass w url prompt fuel files :
  (forall pre path text post,
      trace (snd (TextOpt.run w url fuel files))
      = (pre ++ EAppend path text :: post)%list ->
      (exists pre' verdict quiet,
          pre = (pre' ++ EVerdict verdict :: quiet)%list
          /\ score verdict = "pass"
          /\ Forall (fun e => is_agent_event e = false) quiet)
      /\ Forall (eq EBrowserClose) post)
  /\ (forall pre path text post,
      trace (snd (ImageOpt.run w url prompt fuel files))
      = (pre ++ EAppend path text :: post)%list ->
      (exists pre' verdict quiet,
          pre = (pre' ++ EVerdict verdict :: quiet)%list
          /\ score verdict = "pass"
          /\ Forall (fun e => is_agent_event e = false) quiet)
      /\ Forall (eq EBrowserClose) post).
Proof.
  split; intros pre path text post E.
  - destruct (text_run_watch w url fuel files) as [ph H].
    eapply watch_all_sound; eauto.
  - destruct (image_run_watch w url prompt fuel files) as [ph H].
    eapply watch_all_sound; eauto.
Qed.

(** ** Early exits of the image run *)

(** C10: [process_image_optimization] returns [None] in exactly two cases:
    the inventory is empty, or the image specialist's result has no
    [final_output].  In both the only calls made are the ones before the
    loop and the closing of the browser (no download, no generation, no
    upload, no evaluation), and no file is written. *)
Theorem image_run_returns_None w url prompt fuel files :
  let inventory := ImageOpt.image_inventory w url (loaded_imgs w) in
  let shot := mkShot true (mkPage 1920 800 (loaded_imgs w) []) in
  let items := ImageOpt.specialist_items (png_of w shot) inventory in
  let r := ImageOpt.run w url prompt fuel files in
  (fst r = Done None <->
     inventory = []
     \/ (inventory <> [] /\ image_specialist w items = Returns None))
  /\ (inventory = [] ->
        r = (Done None,
             mkState files (mkPage 1920 800 (loaded_imgs w) []) [EBrowserClose]
                     ImageOpt.no_locals))
  /\ (inventory <> [] -> image_specialist w items = Returns None ->
        fst r = Done None
        /\ fs (snd r) = files
        /\ trace (snd r) = [EScreenshot shot; ERunSpecialist items; EBrowserClose]).
Proof.
  cbv zeta. norm_top.
  destruct (ImageOpt.image_inventory w url (loaded_imgs w)) as [|e inv] eqn:Einv;
    cbn [length Nat.eqb]; norm_top.
  - split; [split; auto|]. split; [reflexivity|]. intros []; reflexivity.
  - destruct (image_specialist w _) as [[change|]|err] eqn:Espec; norm_top.
    + destruct (while_true fuel _ 0%nat _) as [[[]| |] st']; norm_top.
      all: split; [split; [discriminate|intros [H|[_ H]]; discriminate]|].
      all: split; [discriminate|intros _ H; discriminate].
    + split; [split; [right; split; [discriminate|reflexivity]|reflexivity]|].
      split; [discriminate|]. intros _ _. repeat split.
    + split; [split; [discriminate|intros [H|[_ H]]; discriminate]|].
      split; [discriminate|intros _ H; discriminate].
Qed.

(** A page without images: the run closes the browser and returns [None]. *)
Example image_run_without_images :
  ImageOpt.run Demo.world_no_image Demo.shop_url "prompt" 3 ∅
  = (Done None,
     mkState ∅ (mkPage 1920 800 [] []) [EBrowserClose] ImageOpt.no_locals).
Proof. reflexivity. Qed.

(** ** A failed download *)

(** At any iteration, a download answered with a status other than 200 ends
    the loop at once: the only call recorded is the download itself, and
    files, page and variables are as before. *)
Lemma failed_download_breaks w prompt change sites_dir i
    (st : state ImageOpt.img_locals) status body :
  download w i (image_url change) = Returns (status, body) ->
  status <> 200 ->
  ImageOpt.iteration w prompt change sites_dir i st
  = (Done Break,
     mkState (fs st) (page st) (trace st ++ [EDownload (image_url change)])
             (locals st)).
Proof.
  intros Hd Hs. destruct st as [f p t l]. norm_run. rewrite Hd.
  apply Z.eqb_neq in Hs. rewrite Hs. reflexivity.
Qed.

(** C8: when the download of the candidate image is answered with a status
    other than 200, the run ends at that point.  At whatever iteration this
    happens, the loop is left at once and the only call recorded from there
    is the download itself: nothing is written, the image service is not
    called, no upload is attempted.  When it happens at the first download,
    the whole run has written no file, never called the image service and
    attempted no upload: its calls are the screenshot, the specialist, the
    creation of the folder, the download and the closing of the browser. *)
Theorem failed_download_aborts w url prompt change i status body :
  download w i (image_url change) = Returns (status, body) ->
  status <> 200 ->
  (forall sites_dir fuel (st : state ImageOpt.img_locals),
      while_true (S fuel) (ImageOpt.iteration w prompt change sites_dir) i st
      = (Done tt,
         mkState (fs st) (page st) (trace st ++ [EDownload (image_url change)])
                 (locals st)))
  /\ (forall fuel files,
        let inventory := ImageOpt.image_inventory w url (loaded_imgs w) in
        let shot := mkShot true (mkPage 1920 800 (loaded_imgs w) []) in
        let items := ImageOpt.specialist_items (png_of w shot) inventory in
        let sites_dir :=
          PyStr.path_join
            (PyStr.path_join "sites" (Str.py_replace "www." "" (netloc w url)))
            "img" in
        let r := ImageOpt.run w url prompt (S fuel) files in
        i = 0%nat ->
        inventory <> [] ->
        image_specialist w items = Returns (Some change) ->
        fst r = Done (Some (ImageOpt.mkImageResult
                              (change_description change) (image_url change)
                              None (Some (png_of w shot)) None None))
        /\ fs (snd r) = files
        /\ trace (snd r)
           = [EScreenshot shot; ERunSpecialist items; EMakedirs sites_dir;
              EDownload (image_url change); EBrowserClose]).
Proof.
  intros Hd Hs. split.
  { intros sites_dir fuel st. cbn [while_true]. unfold bind.
    rewrite (failed_download_breaks _ _ _ _ _ _ _ _ Hd Hs). reflexivity. }
  cbv zeta. intros fuel files -> Hinv Hspec.
  assert (E : exists l,
    ImageOpt.run w url prompt (S fuel) files
    = (Done (Some (ImageOpt.mkImageResult
                     (change_description change) (image_url change) None
                     (Some (png_of w (mkShot true
                                        (mkPage 1920 800 (loaded_imgs w) []))))
                     None None)),
       mkState files (mkPage 1920 800 (loaded_imgs w) [])
         [EScreenshot (mkShot true (mkPage 1920 800 (loaded_imgs w) []));
          ERunSpecialist
            (ImageOpt.specialist_items
               (png_of w (mkShot true (mkPage 1920 800 (loaded_imgs w) [])))
               (ImageOpt.image_inventory w url (loaded_imgs w)));
          EMakedirs
            (PyStr.path_join
               (PyStr.path_join "sites"
                  (Str.py_replace "www." "" (netloc w url))) "img");
          EDownload (image_url change); EBrowserClose] l)).
  { norm_top.
    destruct (ImageOpt.image_inventory w url (loaded_imgs w)) as [|e inv] eqn:Einv;
      [congruence|].
    cbn [length Nat.eqb]. norm_top. rewrite Hspec. norm_top.
    cbn [while_true]. norm_top.
    rewrite (failed_download_breaks _ _ _ _ _ _ _ _ Hd Hs). norm_top.
    eexists. reflexivity. }
  destruct E as [l E]. rewrite E. repeat split.
Qed.

(** A run against a server that answers 404. *)
Lemma failed_download_404 :
  let r := ImageOpt.run Demo.world_404 Demo.shop_url "prompt" 1 ∅ in
  fst r = Done (Some (ImageOpt.mkImageResult
                        "Brighter hero image" "https://shop.example.com/hero.png"
                        None (Some "full-page.png") None None))
  /\ fs (snd r) = ∅
  /\ trace (snd r)
     = [EScreenshot (mkShot true (mkPage 1920 800 [Demo.hero] []));
        ERunSpecialist
          (ImageOpt.specialist_items "full-page.png"
             (ImageOpt.image_inventory Demo.world_404 Demo.shop_url [Demo.hero]));
        EMakedirs "sites/shop.example.com/img";
        EDownload "https://shop.example.com/hero.png"; EBrowserClose].
Proof.
  refine (proj2 (failed_download_aborts Demo.world_404 Demo.shop_url "prompt"
                   (mkImageChange "https://shop.example.com/hero.png"
                                  "Brighter hero image")
                   0 404 "Not Found" _ _) 0%nat ∅ _ _ _).
  - reflexivity.
  - lia.
  - reflexivity.
  - vm_compute. discriminate.
  - reflexivity.
Defined.

(** ** A failed upload *)

(** Without a token, [upload_to_github] returns [None]; the iteration goes on
    all the same and evaluates the replacement script, which then assigns
    the text [None] to the [src] of the matched image. *)
Lemma upload_failure_does_not_abort w prompt change sites_dir i
    (st : state ImageOpt.img_locals) body png bytes :
  PyStr.truthy (GITHUB_TOKEN w) = false ->
  download w i (image_url change) = Returns (200, body) ->
  to_png w i body = Returns png ->
  images_edit w i prompt png = Returns bytes ->
  exists rest,
    trace (snd (ImageOpt.iteration w prompt change sites_dir i st))
    = (trace st
       ++ [EDownload (image_url change); EImagesEdit prompt;
           EWrite (PyStr.path_join sites_dir (uuid4 w i +:+ ".png")) bytes;
           EUpload (PyStr.path_join sites_dir (uuid4 w i +:+ ".png"));
           EPageEvaluate (ImageOpt.render_js_code (image_url change) None)]
       ++ rest)%list.
Proof.
  intros Htok Hd Hp He. destruct st as [f p t l]. norm_run.
  rewrite Hd. norm_run. change (negb (200 =? 200)) with false. norm_run.
  rewrite Hp. norm_run. rewrite He. norm_run.
  match goal with
  | |- context [Util.upload_to_github ?w ?i ?path ?repo ?st] =>
      destruct (upload_to_github_frame w i path repo st)
        as (o & d & E & Hd' & Ho & Hnone);
      destruct (Hnone Htok) as [-> ->]; rewrite E; clear E
  end.
  exec.
  all: rewrite <- ?app_assoc; simpl app.
  all: eexists; reflexivity.
Qed.

(** C5 fails on the code.  With no [GITHUB_TOKEN], the upload yields no URL,
    yet the run does not stop there: the replacement script is evaluated
    with the text [None] as new source, and the matched image of the page
    ends with [src = 'None'].  The run stops only afterwards, when the wait
    for an image from raw.githubusercontent.com times out. *)
Theorem missing_token_run :
  let r := ImageOpt.run Demo.world_no_token Demo.shop_url "prompt" 1 ∅ in
  let url := "https://shop.example.com/hero.png" in
  let file := "sites/shop.example.com/img/uuid-0.png" in
  GITHUB_TOKEN Demo.world_no_token = None
  /\ fst r = Done (Some (ImageOpt.mkImageResult
                           "Brighter hero image" url None (Some "full-page.png")
                           (Some (ImageOpt.render_js_code url None)) None))
  /\ trace (snd r)
     = [EScreenshot (mkShot true (mkPage 1920 800 [Demo.hero] []));
        ERunSpecialist
          (ImageOpt.specialist_items "full-page.png"
             (ImageOpt.image_inventory Demo.world_no_token Demo.shop_url
                [Demo.hero]));
        EMakedirs "sites/shop.example.com/img";
        EDownload url; EImagesEdit "prompt"; EWrite file "edited:jpeg bytes";
        EUpload file;
        EPageEvaluate (ImageOpt.render_js_code url None);
        EBrowserClose]
  /\ imgs (page (snd r)) = [mkImg (Some "None") (Some "hero") 1000 800].
Proof. vm_compute. repeat split. Qed.

(** ** How often the proposers are called *)

Lemma count_app p t1 t2 : count p (t1 ++ t2) = (count p t1 + count p t2)%nat.
Proof. unfold count. now rewrite List.filter_app, length_app. Qed.

Lemma count_upload_events p d :
  (forall e, is_upload_event e = true -> p e = false) ->
  Forall (fun e => is_upload_event e = true) d -> count p d = 0%nat.
Proof.
  intros Hp. induction 1 as [|e d He Hd IH]; [reflexivity|].
  unfold count in *. simpl. now rewrite (Hp e He).
Qed.

Lemma count_cons p e t :
  count p (e :: t) = ((if p e then 1 else 0) + count p t)%nat.
Proof. unfold count. simpl. now destruct (p e). Qed.

Lemma count_nil p : count p [] = 0%nat.
Proof. reflexivity. Qed.

(** Counts the events of a trace that is written as a known trace followed
    by the events of a path; [d] stands for the requests of an upload. *)
Ltac count_steps :=
  repeat first [ rewrite count_app | rewrite count_cons | rewrite count_nil ];
  repeat match goal with
  | Hd : Forall (fun e => is_upload_event e = true) ?d |- context [count ?p ?d] =>
      rewrite (count_upload_events p d
                 ltac:(intros []; simpl; solve [reflexivity | discriminate]) Hd)
  end;
  cbn [is_specialist_run is_coder_run is_verdict is_fail_verdict is_log_line
       is_loop_event];
  repeat match goal with Hs : String.eqb _ _ = _ |- _ => rewrite Hs end;
  cbn [negb Nat.add].

Lemma image_iteration_no_specialist w prompt change sites_dir i
    (st : state ImageOpt.img_locals) :
  exists d,
    trace (snd (ImageOpt.iteration w prompt change sites_dir i st))
    = (trace st ++ d)%list
    /\ count is_specialist_run d = 0%nat.
Proof.
  destruct st as [f p t l].
  exec.
  all: try use_upload.
  all: norm_run.
  all: rewrite <- ?app_assoc; simpl app.
  all: eexists; split; [reflexivity|].
  all: count_steps; reflexivity.
Qed.

Lemma image_loop_no_specialist w prompt change sites_dir fuel i
    (st : state ImageOpt.img_locals) :
  exists d,
    trace (snd (while_true fuel (ImageOpt.iteration w prompt change sites_dir) i st))
    = (trace st ++ d)%list
    /\ count is_specialist_run d = 0%nat.
Proof.
  revert i st. induction fuel as [|fuel IH]; intros i st; simpl.
  - exists []. now rewrite app_nil_r.
  - unfold bind.
    destruct (image_iteration_no_specialist w prompt change sites_dir i st)
      as (d & E & Hd).
    destruct (ImageOpt.iteration w prompt change sites_dir i st)
      as [[[|]| |] st'] eqn:Eit; simpl in E |- *; eauto.
    destruct (IH (S i) st') as (d' & E' & Hd').
    exists (d ++ d')%list. rewrite E', E, <- app_assoc. split; [reflexivity|].
    rewrite count_app. lia.
Qed.

(** After a verdict of fail the image loop goes round again: download,
    generation, upload, replacement, screenshot and evaluation are all
    repeated, the specialist is not consulted, and the conversation grows by
    the screenshot and the evaluator's feedback. *)
Lemma image_retry_after_fail w prompt change sites_dir i
    (st st' : state ImageOpt.img_locals) :
  ImageOpt.iteration w prompt change sites_dir i st = (Done Continue, st') ->
  exists bytes uploads new_url shot verdict,
    let file := PyStr.path_join sites_dir (uuid4 w i +:+ ".png") in
    let shot_message :=
      User (Parts [input_image ("data:image/jpeg;base64," +:+ png_of w shot)]) in
    trace st'
    = (trace st
       ++ [EDownload (image_url change); EImagesEdit prompt; EWrite file bytes]
       ++ EUpload file :: uploads
       ++ [EPageEvaluate (ImageOpt.render_js_code (image_url change) new_url);
           EScreenshot shot;
           EWrite (PyStr.path_join sites_dir "after_replacement.png") (png_of w shot);
           ERunEvaluator (ImageOpt.input_items (locals st) ++ [shot_message]);
           EVerdict verdict])%list
    /\ Forall (fun e => is_upload_event e = true) uploads
    /\ score verdict <> "pass"
    /\ ImageOpt.input_items (locals st')
       = (ImageOpt.input_items (locals st)
          ++ [shot_message; User (Text ("Feedback: " +:+ feedback verdict))])%list.
Proof.
  destruct st as [f p t l].
  exec.
  all: try use_upload.
  all: norm_run.
  all: intros E; inversion E; subst; clear E.
  norm_run. rewrite <- ?app_assoc. simpl app.
  do 5 eexists. split; [reflexivity|]. split; [eassumption|].
  split; [now apply String.eqb_neq|reflexivity].
Qed.

Lemma text_iteration_counts w site_folder i (st : state TextOpt.txt_locals) :
  count is_coder_run (trace st) = count is_fail_verdict (trace st) ->
  let r := TextOpt.iteration w site_folder i st in
  (exists rest,
      trace (snd r) = (trace st ++ ERunCoder (TextOpt.input_items (locals st)) :: rest)%list
      /\ count is_coder_run rest = 0%nat)
  /\ match fst r with
     | Done Continue =>
         count is_coder_run (trace (snd r)) = count is_fail_verdict (trace (snd r))
     | Done Break =>
         count is_coder_run (trace (snd r))
         = S (count is_fail_verdict (trace (snd r)))
     | _ =>
         (count is_fail_verdict (trace (snd r))
          <= count is_coder_run (trace (snd r))
          <= S (count is_fail_verdict (trace (snd r))))%nat
     end.
Proof.
  destruct st as [f p t l]. cbv [trace locals]. intros H.
  exec.
  all: split; [rewrite <- ?app_assoc; simpl app; eexists; split;
               [reflexivity|count_steps; reflexivity]|].
  all: count_steps; lia.
Qed.

Lemma text_loop_counts w site_folder fuel i (st : state TextOpt.txt_locals) :
  count is_coder_run (trace st) = count is_fail_verdict (trace st) ->
  let r := while_true fuel (TextOpt.iteration w site_folder) i st in
  match fst r with
  | Done _ =>
      count is_coder_run (trace (snd r)) = S (count is_fail_verdict (trace (snd r)))
  | _ =>
      (count is_fail_verdict (trace (snd r))
       <= count is_coder_run (trace (snd r))
       <= S (count is_fail_verdict (trace (snd r))))%nat
  end.
Proof.
  intros H.
  apply (while_true_rule (TextOpt.iteration w site_folder)
           (fun _ st => count is_coder_run (trace st)
                        = count is_fail_verdict (trace st))
           (fun o st => match o with
                        | Done _ => count is_coder_run (trace st)
                                    = S (count is_fail_verdict (trace st))
                        | _ => (count is_fail_verdict (trace st)
                                <= count is_coder_run (trace st)
                                <= S (count is_fail_verdict (trace st)))%nat
                        end)); [| |exact H].
  - intros j s Hs. destruct (text_iteration_counts w site_folder j s Hs) as [_ T].
    destruct (TextOpt.iteration w site_folder j s) as [[[|]| |] s']; exact T.
  - intros _ s Hs. lia.
Qed.

Ltac proj_in H := cbv [fst snd trace fs page locals] in H.

Lemma image_run_specialist_once w url prompt fuel files :
  let inventory := ImageOpt.image_inventory w url (loaded_imgs w) in
  let shot := mkShot true (mkPage 1920 800 (loaded_imgs w) []) in
  let items := ImageOpt.specialist_items (png_of w shot) inventory in
  inventory <> [] ->
  exists rest,
    trace (snd (ImageOpt.run w url prompt fuel files))
    = EScreenshot shot :: ERunSpecialist items :: rest
    /\ count is_specialist_run rest = 0%nat.
Proof.
  cbv zeta. intros Hinv. norm_top.
  destruct (ImageOpt.image_inventory w url (loaded_imgs w)) as [|e inv] eqn:Einv;
    [congruence|].
  cbn [length Nat.eqb]. norm_top.
  repeat (split_match; norm_top).
  all: try (match goal with
       | H : while_true ?f (ImageOpt.iteration ?w ?pr ?ch ?sd) ?i ?st = _ |- _ =>
           destruct (image_loop_no_specialist w pr ch sd f i st) as (d & E & Hd);
           rewrite H in E; clear H; proj_in E
       end).
  all: subst; norm_top.
  all: rewrite <- ?app_assoc; simpl app.
  all: eexists; split; [reflexivity|].
  all: count_steps; try reflexivity; try lia.
Qed.

Lemma text_run_counts w url fuel files :
  let r := TextOpt.run w url fuel files in
  match fst r with
  | Done _ =>
      count is_coder_run (trace (snd r)) = S (count is_fail_verdict (trace (snd r)))
  | _ =>
      (count is_fail_verdict (trace (snd r))
       <= count is_coder_run (trace (snd r))
       <= S (count is_fail_verdict (trace (snd r))))%nat
  end.
Proof.
  norm_top.
  repeat (split_match; norm_top).
  all: try (match goal with
       | H : while_true ?f (TextOpt.iteration ?w ?sf) ?i ?st = _ |- _ =>
           let T := fresh "T" in
           assert (T : count is_coder_run (trace st)
                       = count is_fail_verdict (trace st)) by reflexivity;
           apply (text_loop_counts w sf f i) in T; rewrite H in T; clear H;
           proj_in T
       end).
  all: subst; norm_top.
  all: count_steps; try reflexivity; try lia.
Qed.

(** C4 (amended): in an image run whose inventory is not empty the image
    specialist is called exactly once, as the second call of the run and
    before anything of the retry loop, however many verdicts follow; an
    iteration that ends with a verdict of fail calls no specialist, and
    leaves the conversation longer by the new screenshot and the evaluator's
    feedback, for the next round of download, generation, upload,
    replacement, screenshot and evaluation.  In a text run every iteration
    starts by calling the coder, so a run that ends normally has called it
    once more than there were verdicts of fail. *)
Theorem proposer_calls w url prompt fuel files :
  (ImageOpt.image_inventory w url (loaded_imgs w) <> [] ->
   exists shot items rest,
     trace (snd (ImageOpt.run w url prompt fuel files))
     = EScreenshot shot :: ERunSpecialist items :: rest
     /\ count is_specialist_run rest = 0%nat
     /\ count is_specialist_run
          (trace (snd (ImageOpt.run w url prompt fuel files))) = 1%nat)
  /\ (forall change sites_dir i (st st' : state ImageOpt.img_locals),
        ImageOpt.iteration w prompt change sites_dir i st = (Done Continue, st') ->
        exists events shot verdict,
          trace st' = (trace st ++ events)%list
          /\ count is_specialist_run events = 0%nat
          /\ count is_verdict events = 1%nat
          /\ count is_fail_verdict events = 1%nat
          /\ ImageOpt.input_items (locals st')
             = (ImageOpt.input_items (locals st)
                ++ [User (Parts [input_image
                                   ("data:image/jpeg;base64," +:+ png_of w shot)]);
                    User (Text ("Feedback: " +:+ feedback verdict))])%list)
  /\ (forall site_folder i (st : state TextOpt.txt_locals),
        exists rest,
          trace (snd (TextOpt.iteration w site_folder i st))
          = (trace st ++ ERunCoder (TextOpt.input_items (locals st)) :: rest)%list)
  /\ match fst (TextOpt.run w url fuel files) with
     | Done _ =>
         count is_coder_run (trace (snd (TextOpt.run w url fuel files)))
         = S (count is_fail_verdict (trace (snd (TextOpt.run w url fuel files))))
     | _ =>
         (count is_fail_verdict (trace (snd (TextOpt.run w url fuel files)))
          <= count is_coder_run (trace (snd (TextOpt.run w url fuel files)))
          <= S (count is_fail_verdict (trace (snd (TextOpt.run w url fuel files)))))%nat
     end.
Proof.
  split.
  { intros Hinv.
    destruct (image_run_specialist_once w url prompt fuel files Hinv)
      as (rest & E & Hrest).
    eexists _, _, rest. split; [exact E|]. split; [exact Hrest|].
    rewrite E. count_steps. now rewrite Hrest. }
  split.
  { intros change sites_dir i st st' H.
    destruct (image_retry_after_fail _ _ _ _ _ _ _ H)
      as (bytes & uploads & new_url & shot & verdict & Ht & Hu & Hs & Hi).
    cbv zeta in Ht, Hi. eexists _, shot, verdict.
    split; [exact Ht|]. apply String.eqb_neq in Hs.
    repeat split; [count_steps; reflexivity ..|exact Hi]. }
  split.
  { intros site_folder i st.
    destruct st as [f p t l].
    exec; rewrite <- ?app_assoc; simpl app; eexists; reflexivity. }
  apply text_run_counts.
Qed.

(** C4 as stated fails for a page without eligible images: the run returns
    before the specialist is consulted, which is then called zero times. *)
Lemma no_image_no_specialist :
  ImageOpt.image_inventory Demo.world_no_image Demo.shop_url
    (loaded_imgs Demo.world_no_image) = []
  /\ trace (snd (ImageOpt.run Demo.world_no_image Demo.shop_url "prompt" 3 ∅))
     = [EBrowserClose]
  /\ count is_specialist_run
       (trace (snd (ImageOpt.run Demo.world_no_image Demo.shop_url "prompt" 3 ∅)))
     = 0%nat.
Proof. repeat split. Qed.

(** ** Heights of the viewport *)

Lemma scale_800 : PyFloat.scale_1_1 800 = Some 880.
Proof. vm_compute. reflexivity. Qed.

Lemma scale_880 : PyFloat.scale_1_1 880 = Some 968.
Proof. vm_compute. reflexivity. Qed.

Lemma scale_968 : PyFloat.scale_1_1 968 = Some 1064.
Proof. vm_compute. reflexivity. Qed.

Lemma scale_1064 : PyFloat.scale_1_1 1064 = Some 1170.
Proof. vm_compute. reflexivity. Qed.

Lemma scale_1170 : PyFloat.scale_1_1 1170 = Some 1287.
Proof. vm_compute. reflexivity. Qed.

Lemma scale_1287 : PyFloat.scale_1_1 1287 = Some 1415.
Proof. vm_compute. reflexivity. Qed.

(** ** Fail, fail, pass *)

Lemma site_folder_truthy x : negb (PyStr.truthy (Some ("sites/" +:+ x))) = false.
Proof. reflexivity. Qed.

Lemma script_is_not_log folder : folder +:+ "/script.js" <> folder +:+ "/log.txt".
Proof.
  induction folder as [|c folder IH]; simpl; [discriminate|].
  intros H. injection H as H. auto.
Qed.

Section Scenario.
Variable w : World.
Variable url : string.
Variable outs : nat -> JSOutput.
Variable verdicts : nat -> Evaluation.
Hypothesis coder_answers :
  forall i items, (i < 3)%nat -> coder w i items = Returns (outs i).
Hypothesis evaluator_answers :
  forall i items, (i < 3)%nat -> evaluator w i items = Returns (verdicts i).
Hypothesis scripts_run : forall history js, js_throws w history js = false.
Hypothesis first_fails : score (verdicts 0) <> "pass".
Hypothesis second_fails : score (verdicts 1) <> "pass".
Hypothesis third_passes : score (verdicts 2) = "pass".

(** C3: when the evaluator fails the first two attempts and passes the
    third, the coder has been called exactly three times, exactly one line
    has been appended to the log (the description of the third proposal),
    and after the verdict of pass the third script is evaluated once more
    before the final screenshot is taken: the screenshot kept in the result
    of the run shows the page on which the three scripts, and the third one
    again, have been evaluated. *)
Theorem fail_fail_pass k files :
  let site_folder := "sites/" +:+ Str.py_replace "www." "" (netloc w url) in
  let log := site_folder +:+ "/log.txt" in
  let line := "- " +:+ js_change_description (outs 2) +:+ PyStr.nl in
  let final_page :=
    mkPage 1920 1415 (loaded_imgs w)
           [script (outs 0); script (outs 1); script (outs 2); script (outs 2)] in
  let r := TextOpt.run w url (3 + k) files in
  fst r = Done (TextOpt.mkTextResult
                  (js_change_description (outs 2)) (feedback (verdicts 2))
                  (png_of w (mkShot false final_page)) (script (outs 2)))
  /\ count is_coder_run (trace (snd r)) = 3%nat
  /\ count is_verdict (trace (snd r)) = 3%nat
  /\ count is_log_line (trace (snd r)) = 1%nat
  /\ fs (snd r) !! log = Some (default "" (files !! log) +:+ line)
  /\ page (snd r) = final_page
  /\ exists before,
       trace (snd r)
       = (before
          ++ [EVerdict (verdicts 2); EPageEvaluate (script (outs 2));
              ESetViewport 1920 1415; EScreenshot (mkShot false final_page);
              EAppend log line; EBrowserClose])%list.
Proof.
  cbv zeta.
  apply String.eqb_neq in first_fails, second_fails.
  apply String.eqb_eq in third_passes.
  assert (E : exists st, TextOpt.run w url (3 + k) files = st /\ st = st)
    by (eexists; split; reflexivity).
  destruct E as (st & E & _). rewrite E. revert E.
  norm_top.
  rewrite scale_800. norm_top. rewrite scale_880. norm_top.
  rewrite site_folder_truthy. norm_top.
  repeat (cbn [while_true Nat.add]; norm_top; norm_run;
    repeat first [ rewrite coder_answers by lia
                 | rewrite evaluator_answers by lia
                 | rewrite scripts_run
                 | rewrite first_fails | rewrite second_fails
                 | rewrite third_passes
                 | rewrite scale_968 | rewrite scale_1064
                 | rewrite scale_1170 | rewrite scale_1287 ];
    norm_run).
  intros <-. norm_top.
  split; [reflexivity|].
  split; [count_steps; reflexivity|].
  split; [count_steps; reflexivity|].
  split; [count_steps; reflexivity|].
  split.
  { rewrite lookup_insert_eq.
    rewrite !lookup_insert_ne by apply script_is_not_log. reflexivity. }
  split; [reflexivity|].
  rewrite <- !app_assoc. simpl app.
  match goal with
  | |- exists before, ?t = _ => exists (firstn (length t - 6) t)
  end.
  reflexivity.
Qed.
End Scenario.

(** The scenario on a concrete site: three proposals, the third accepted. *)
Lemma fail_fail_pass_demo :
  let r := TextOpt.run Demo.world_fail_fail_pass Demo.www_shop_url 3 ∅ in
  let third := Demo.three_proposals 2 in
  let final_page :=
    mkPage 1920 1415 [Demo.hero]
           [script (Demo.three_proposals 0); script (Demo.three_proposals 1);
            script third; script third] in
  fst r = Done (TextOpt.mkTextResult "Headline, attempt 3" "Looks right."
                  "viewport.png" (script third))
  /\ count is_coder_run (trace (snd r)) = 3%nat
  /\ count is_log_line (trace (snd r)) = 1%nat
  /\ fs (snd r) !! "sites/shop.example.com/log.txt"
     = Some ("- Headline, attempt 3" +:+ PyStr.nl)
  /\ page (snd r) = final_page.
Proof.
  pose proof (fail_fail_pass Demo.world_fail_fail_pass Demo.www_shop_url
                Demo.three_proposals Demo.fail_fail_pass_verdicts) as H.
  assert (Hc : forall i items, (i < 3)%nat ->
             coder Demo.world_fail_fail_pass i items
             = Returns (Demo.three_proposals i)) by reflexivity.
  assert (He : forall i items, (i < 3)%nat ->
             evaluator Demo.world_fail_fail_pass i items
             = Returns (Demo.fail_fail_pass_verdicts i)) by reflexivity.
  assert (Hj : forall history js,
             js_throws Demo.world_fail_fail_pass history js = false)
    by reflexivity.
  assert (H0 : score (Demo.fail_fail_pass_verdicts 0) <> "pass")
    by (vm_compute; discriminate).
  assert (H1 : score (Demo.fail_fail_pass_verdicts 1) <> "pass")
    by (vm_compute; discriminate).
  assert (H2 : score (Demo.fail_fail_pass_verdicts 2) = "pass") by reflexivity.
  specialize (H Hc He Hj H0 H1 H2 0%nat ∅). cbv zeta in H.
  destruct H as (Hr & Hcoder & _ & Hlog & Hfs & Hpage & _).
  cbv zeta. split; [exact Hr|]. split; [exact Hcoder|]. split; [exact Hlog|].
  split; [exact Hfs|exact Hpage].
Defined.

(** ** The change log *)

Lemma text_iteration_log w site_folder i (st : state TextOpt.txt_locals) :
  let log := site_folder +:+ "/log.txt" in
  match TextOpt.iteration w site_folder i st with
  | (Done Break, st') =>
      exists out,
        TextOpt.coder_result (locals st') = Some out
        /\ TextOpt.result (locals st') <> None
        /\ TextOpt.final_screenshot (locals st') <> None
        /\ fs st' !! log
           = Some (default "" (fs st !! log) +:+ log_line (js_change_description out))
  | (_, st') => fs st' !! log = fs st !! log
  end.
Proof.
  destruct st as [f p t l]. cbv zeta.
  exec.
  all: rewrite ?lookup_insert_eq, ?lookup_insert_ne by apply script_is_not_log.
  all: first [ reflexivity
             | eexists; repeat split; solve [discriminate | reflexivity] ].
Qed.

Lemma text_loop_log w site_folder fuel i (st : state TextOpt.txt_locals) :
  let log := site_folder +:+ "/log.txt" in
  match while_true fuel (TextOpt.iteration w site_folder) i st with
  | (Done _, st') =>
      exists out,
        TextOpt.coder_result (locals st') = Some out
        /\ TextOpt.result (locals st') <> None
        /\ TextOpt.final_screenshot (locals st') <> None
        /\ fs st' !! log
           = Some (default "" (fs st !! log) +:+ log_line (js_change_description out))
  | (_, st') => fs st' !! log = fs st !! log
  end.
Proof.
  cbv zeta.
  pose proof (while_true_rule (TextOpt.iteration w site_folder)
    (fun _ s => fs s !! (site_folder +:+ "/log.txt")
                = fs st !! (site_folder +:+ "/log.txt"))
    (fun o s => match o with
                | Done _ =>
                    exists out,
                      TextOpt.coder_result (locals s) = Some out
                      /\ TextOpt.result (locals s) <> None
                      /\ TextOpt.final_screenshot (locals s) <> None
                      /\ fs s !! (site_folder +:+ "/log.txt")
                         = Some (default "" (fs st !! (site_folder +:+ "/log.txt"))
                                 +:+ log_line (js_change_description out))
                | _ => fs s !! (site_folder +:+ "/log.txt")
                       = fs st !! (site_folder +:+ "/log.txt")
                end)) as R.
  assert (R1 := R ltac:(
    intros j s Hs;
    pose proof (text_iteration_log w site_folder j s) as T; cbv zeta in T;
    destruct (TextOpt.iteration w site_folder j s) as [[[|]| |] s'];
    try (rewrite T; exact Hs);
    destruct T as (out & T1 & T2 & T3 & T4); exists out; rewrite T4, Hs; auto)
    ltac:(intros j s Hs; exact Hs) fuel i st eq_refl).
  destruct (while_true fuel (TextOpt.iteration w site_folder) i st) as [[] s'];
    exact R1.
Qed.

(** The log of the site after a text run. *)
Lemma text_run_log w url fuel files :
  let log := text_log w url in
  let r := TextOpt.run w url fuel files in
  match fst r with
  | Done res =>
      fs (snd r) !! log
      = Some (default "" (files !! log) +:+ log_line (TextOpt.coder_response res))
  | _ => fs (snd r) !! log = files !! log
  end.
Proof.
  unfold text_log. norm_top.
  repeat (split_match; norm_top).
  all: try reflexivity.
  all: match goal with
       | H : while_true ?f (TextOpt.iteration ?w ?sf) ?i ?st = _ |- _ =>
           pose proof (text_loop_log w sf f i st) as T; cbv zeta in T;
           rewrite H in T; clear H; proj_in T
       end.
  all: subst; norm_top.
  all: try exact T.
  all: destruct T as (out & T1 & T2 & T3 & T4); simpl in T1, T2, T3;
       try congruence.
  all: injection T1 as <-; exact T4.
Qed.

Lemma last_char_append a b : b <> "" -> last_char (a +:+ b) = last_char b.
Proof.
  intros Hb. induction a as [|c a IH]; [reflexivity|].
  change (String c a +:+ b) with (String c (a +:+ b)).
  cbn [last_char]. rewrite IH.
  destruct (a +:+ b) eqn:E; [|reflexivity].
  exfalso. destruct a; cbn in E; [exact (Hb E)|discriminate].
Qed.

Lemma last_char_path_join a x : x <> "" -> last_char (PyStr.path_join a x) = last_char x.
Proof.
  intros Hx. unfold PyStr.path_join.
  destruct (Str.startswith x "/"); [reflexivity|].
  destruct (String.eqb a "" || Str.endswith a "/")%bool.
  - now apply last_char_append.
  - rewrite last_char_append; [now apply (last_char_append "/")|].
    destruct x; [congruence|discriminate].
Qed.

(** A file whose name ends with the letter g is not the log. *)
Lemma png_is_not_log sites_dir x :
  last_char x = Some "g"%char ->
  PyStr.path_join sites_dir x <> sites_dir +:+ "/log.txt".
Proof.
  intros Hx E. apply (f_equal last_char) in E.
  rewrite last_char_path_join, Hx in E by (destruct x; [discriminate|discriminate]).
  rewrite last_char_append in E by discriminate. discriminate.
Qed.

Lemma last_char_png u : last_char (u +:+ ".png") = Some "g"%char.
Proof. now rewrite last_char_append. Qed.

Lemma image_iteration_log w prompt change sites_dir i
    (st : state ImageOpt.img_locals) :
  let log := sites_dir +:+ "/log.txt" in
  let r := ImageOpt.iteration w prompt change sites_dir i st in
  exists d,
    trace (snd r) = (trace st ++ d)%list
    /\ ((count is_log_line d = 0%nat /\ fs (snd r) !! log = fs st !! log)
        \/ (count is_log_line d = 1%nat
            /\ fst r = Done Break
            /\ fs (snd r) !! log
               = Some (default "" (fs st !! log)
                       +:+ log_line (change_description change)))).
Proof.
  destruct st as [f p t l]. cbv zeta.
  exec.
  all: try use_upload.
  all: norm_run.
  all: rewrite <- ?app_assoc; simpl app.
  all: eexists; split; [reflexivity|].
  all: rewrite ?lookup_insert_eq.
  all: rewrite ?lookup_insert_ne
         by first [ apply png_is_not_log, last_char_png
                  | apply png_is_not_log; reflexivity ].
  all: first [ left; split; [count_steps; reflexivity|reflexivity]
             | right; split; [count_steps; reflexivity|split; reflexivity] ].
Qed.

Lemma image_loop_log w prompt change sites_dir fuel i
    (st : state ImageOpt.img_locals) :
  let log := sites_dir +:+ "/log.txt" in
  let r := while_true fuel (ImageOpt.iteration w prompt change sites_dir) i st in
  exists d,
    trace (snd r) = (trace st ++ d)%list
    /\ ((count is_log_line d = 0%nat /\ fs (snd r) !! log = fs st !! log)
        \/ (count is_log_line d = 1%nat
            /\ fst r = Done tt
            /\ fs (snd r) !! log
               = Some (default "" (fs st !! log)
                       +:+ log_line (change_description change)))).
Proof.
  cbv zeta. revert i st. induction fuel as [|fuel IH]; intros i st; simpl.
  - exists []. rewrite app_nil_r. split; [reflexivity|]. left. now split.
  - unfold bind.
    destruct (image_iteration_log w prompt change sites_dir i st)
      as (d & E & Hd). cbv zeta in E, Hd.
    destruct (ImageOpt.iteration w prompt change sites_dir i st)
      as [[[|]| |] st'] eqn:Eit; simpl in E, Hd |- *.
    + destruct Hd as [[Hc Hf]|(_ & Hb & _)]; [|discriminate].
      destruct (IH (S i) st') as (d' & E' & Hd').
      exists (d ++ d')%list. rewrite E', E, <- app_assoc. split; [reflexivity|].
      rewrite count_app, Hc, <- Hf. exact Hd'.
    + exists d. split; [exact E|].
      destruct Hd as [Hd|(Hc & _ & Hf)]; [now left|right; auto].
    + exists d. split; [exact E|].
      destruct Hd as [Hd|(_ & Hb & _)]; [now left|discriminate].
    + exists d. split; [exact E|].
      destruct Hd as [Hd|(_ & Hb & _)]; [now left|discriminate].
Qed.

(** The log of the image folder after an image run. *)
Lemma image_run_log w url prompt fuel files :
  let log := image_log w url in
  let r := ImageOpt.run w url prompt fuel files in
  (count is_log_line (trace (snd r)) = 0%nat /\ fs (snd r) !! log = files !! log)
  \/ (count is_log_line (trace (snd r)) = 1%nat
      /\ exists res,
           fst r = Done (Some res)
           /\ fs (snd r) !! log
              = Some (default "" (files !! log)
                      +:+ log_line (ImageOpt.image_specialist_response res))).
Proof.
  unfold image_log. norm_top.
  repeat (split_match; norm_top).
  all: try (left; split; reflexivity).
  all: match goal with
       | H : while_true ?f (ImageOpt.iteration ?w ?pr ?ch ?sd) ?i ?st = _ |- _ =>
           destruct (image_loop_log w pr ch sd f i st) as (d & E & Hd);
           cbv zeta in E, Hd; rewrite H in E, Hd; clear H; proj_in E; proj_in Hd
       end.
  all: subst; norm_top.
  all: destruct Hd as [[Hc Hf]|(Hc & Hb & Hf)]; try discriminate.
  all: try (left; split; [count_steps; rewrite Hc; reflexivity|exact Hf]).
  all: right; split; [count_steps; rewrite Hc; reflexivity|].
  all: eexists; split; [reflexivity|exact Hf].
Qed.

Lemma string_app_assoc a b c : (a +:+ b) +:+ c = a +:+ (b +:+ c).
Proof.
  induction a as [|x a IH]; [reflexivity|].
  change (String x ((a +:+ b) +:+ c) = String x (a +:+ (b +:+ c))).
  now rewrite IH.
Qed.

Lemma string_app_nil_r a : a +:+ "" = a.
Proof.
  induction a as [|x a IH]; [reflexivity|].
  change (String x (a +:+ "") = String x a). now rewrite IH.
Qed.

(** The log after a sequence of text runs on one site. *)
Lemma text_runs_log url host runs : forall files,
  Forall (fun run => netloc (fst run) url = host) runs ->
  let log := ("sites/" +:+ Str.py_replace "www." "" host) +:+ "/log.txt" in
  default "" (fst (text_runs url runs files) !! log)
  = default "" (files !! log) +:+ join_lines (snd (text_runs url runs files)).
Proof.
  cbv zeta. induction runs as [|[w fuel] runs IH]; intros files Hruns.
  - simpl. now rewrite string_app_nil_r.
  - apply List.Forall_cons_iff in Hruns. destruct Hruns as [Hw Hrest].
    simpl in Hw.
    cbn [text_runs].
    specialize (IH (fs (snd (TextOpt.run w url fuel files))) Hrest).
    destruct (text_runs url runs (fs (snd (TextOpt.run w url fuel files))))
      as [files' lines] eqn:Er.
    cbn [fst snd] in IH |- *.
    pose proof (text_run_log w url fuel files) as T. cbv zeta in T.
    unfold text_log in T. rewrite Hw in T.
    destruct (fst (TextOpt.run w url fuel files)) as [res| |];
      rewrite IH, T; cbn [default join_lines id];
      rewrite ?string_app_assoc; reflexivity.
Qed.

(** C7 (amended): an accepted change appends exactly one line
    [- <description>] and a newline to the log of its kind of run: a text
    run to [sites/<host without www.>/log.txt], an image run to
    [sites/<host without www.>/img/log.txt]; a run that does not accept
    leaves that log as it was.  The log only grows at its end: after a
    sequence of text runs on a site its content is what it was before,
    followed by the lines of the accepted runs in the order of the runs. *)
Theorem change_log_append_only url :
  (forall w fuel files,
      match fst (TextOpt.run w url fuel files) with
      | Done res =>
          fs (snd (TextOpt.run w url fuel files)) !! text_log w url
          = Some (default "" (files !! text_log w url)
                  +:+ log_line (TextOpt.coder_response res))
      | _ =>
          fs (snd (TextOpt.run w url fuel files)) !! text_log w url
          = files !! text_log w url
      end)
  /\ (forall w prompt fuel files,
        let r := ImageOpt.run w url prompt fuel files in
        (count is_log_line (trace (snd r)) = 0%nat
         /\ fs (snd r) !! image_log w url = files !! image_log w url)
        \/ (count is_log_line (trace (snd r)) = 1%nat
            /\ exists res,
                 fst r = Done (Some res)
                 /\ fs (snd r) !! image_log w url
                    = Some (default "" (files !! image_log w url)
                            +:+ log_line (ImageOpt.image_specialist_response res))))
  /\ (forall host runs files,
        Forall (fun run => netloc (fst run) url = host) runs ->
        let log := ("sites/" +:+ Str.py_replace "www." "" host) +:+ "/log.txt" in
        default "" (fst (text_runs url runs files) !! log)
        = default "" (files !! log) +:+ join_lines (snd (text_runs url runs files))).
Proof.
  split; [intros w fuel files; apply text_run_log|].
  split; [intros w prompt fuel files; apply image_run_log|].
  intros host runs files H. now apply text_runs_log.
Qed.

(** Two text runs on the same site, both accepted: the log holds the two
    lines in the order of the runs. *)
Lemma change_log_two_runs :
  default ""
    (fst (text_runs Demo.www_shop_url
            [(Demo.world_fail_fail_pass, 3%nat); (Demo.world_accepting, 1%nat)] ∅)
     !! "sites/shop.example.com/log.txt")
  = log_line "Headline, attempt 3" +:+ log_line "Headline, attempt 1".
Proof.
  etransitivity.
  - apply (proj2 (proj2 (change_log_append_only Demo.www_shop_url))
             "www.shop.example.com").
    repeat constructor.
  - vm_compute. reflexivity.
Defined.

(** C7 as stated fails for image runs: an accepted image run writes its line
    to the log of the image folder and leaves [sites/<host>/log.txt]
    absent. *)
Lemma image_run_logs_in_img_folder :
  let r := ImageOpt.run Demo.world_accepting Demo.www_shop_url "prompt" 1 ∅ in
  count is_log_line (trace (snd r)) = 1%nat
  /\ fs (snd r) !! "sites/shop.example.com/log.txt" = None
  /\ fs (snd r) !! "sites/shop.example.com/img/log.txt"
     = Some (log_line "Brighter hero image").
Proof. vm_compute. repeat split. Qed.

(** ** Binary64 arithmetic of [int(viewport_height * 1.1)] *)

















(** ** The viewport grows with every screenshot *)

Lemma heights_checked_210 : heights_checked 210 = true.
Proof. vm_compute. reflexivity. Qed.

Lemma heights_checked_sound n k :
  heights_checked n = true -> (k < n)%nat ->
  PyFloat.scale_1_1 (height_after k) = Some (height_after (S k))
  /\ height_after k < height_after (S k).
Proof.
  unfold heights_checked. rewrite forallb_forall. intros H Hk.
  specialize (H k ltac:(apply in_seq; lia)).
  destruct (PyFloat.scale_1_1 (height_after k)) as [h|]; [|discriminate].
  apply andb_true_iff in H. destruct H as [H1 H2].
  apply Z.eqb_eq in H1. apply Z.ltb_lt in H2. subst. auto.
Qed.

Lemma scale_height_after k :
  (k < 210)%nat ->
  PyFloat.scale_1_1 (height_after k) = Some (height_after (S k))
  /\ height_after k < height_after (S k).
Proof. apply heights_checked_sound. exact heights_checked_210. Qed.















Example viewport_heights_demo :
  shot_heights
    (trace (snd (TextOpt.run Demo.world_fail_fail_pass Demo.www_shop_url 3 ∅)))
  = [968; 1064; 1170; 1287; 1415].
Proof. vm_compute. reflexivity. Qed.

(** * Further properties of the code *)

(** ** Python's [str.replace] as [get_site_folder] uses it *)

Lemma py_replace_from_skip old new s : forall n,
  Str.py_replace_from old new n s = Str.py_replace_from old new O (Str.drop n s).
Proof.
  induction s as [|c s IH]; intros [|n]; try reflexivity.
  cbn [Str.py_replace_from Str.drop]. apply IH.
Qed.

Lemma py_replace_nonempty c0 q new s :
  Str.py_replace (String c0 q) new s = Str.py_replace_from (String c0 q) new O s.
Proof. reflexivity. Qed.

Lemma py_replace_from_cons old new c s :
  Str.py_replace_from old new O (String c s)
  = if String.prefix old (String c s)
    then new +:+ Str.py_replace_from old new (String.length old - 1) s
    else String c (Str.py_replace_from old new O s).
Proof. reflexivity. Qed.

(** A match at the head is replaced and the scan goes on behind it. *)
Lemma py_replace_head c0 q new r :
  Str.py_replace (String c0 q) new (String c0 q +:+ r)
  = new +:+ Str.py_replace (String c0 q) new r.
Proof.
  rewrite !py_replace_nonempty.
  change (String c0 q +:+ r) with (String c0 (q +:+ r)).
  rewrite py_replace_from_cons.
  change (String c0 (q +:+ r)) with (String c0 q +:+ r).
  rewrite prefix_append.
  change (String.length (String c0 q) - 1)%nat with (String.length q - 0)%nat.
  rewrite Nat.sub_0_r, py_replace_from_skip, drop_append. reflexivity.
Qed.

(** Characters that cannot start a match are copied. *)
Lemma py_replace_copy c0 q new p r :
  lacks c0 p = true ->
  Str.py_replace (String c0 q) new (p +:+ r)
  = p +:+ Str.py_replace (String c0 q) new r.
Proof.
  rewrite !py_replace_nonempty.
  induction p as [|c p IH]; intros Hp; [reflexivity|].
  cbn in Hp. apply andb_true_iff in Hp. destruct Hp as [Hc Hp].
  apply negb_true_iff, Ascii.eqb_neq in Hc.
  change (String c p +:+ r) with (String c (p +:+ r)).
  rewrite py_replace_from_cons.
  assert (Hno : String.prefix (String c0 q) (String c (p +:+ r)) = false).
  { simpl. destruct (ascii_dec c0 c) as [->|_]; congruence. }
  rewrite Hno, (IH Hp). reflexivity.
Qed.

Lemma py_replace_absent old new s :
  Str.contains old s = false -> Str.py_replace old new s = s.
Proof.
  destruct old as [|c0 q].
  - destruct s; intros H; discriminate H.
  - rewrite py_replace_nonempty.
    induction s as [|c s IH]; [reflexivity|].
    rewrite contains_cons, py_replace_from_cons.
    destruct (String.prefix (String c0 q) (String c s)); [intros H; discriminate H|].
    intros H. now rewrite IH.
Qed.

(** ** [get_site_folder] and [get_past_changes] *)

(** X1: [get_site_folder] returns [sites/<host>] with every [www.] removed
    from the host, creates that folder and touches nothing else.  A host
    without [www.] is kept as it is; a [www.] is removed wherever it stands
    in the host, not only in front; hence a site reached with and without a
    leading [www.] has one and the same folder. *)
Theorem site_folder_ignores_www {L : Type} w :
  (forall url (st : state L),
      Util.get_site_folder w url st
      = (Done ("sites/" +:+ Str.py_replace "www." "" (netloc w url)),
         mkState (fs st) (page st)
           (trace st
            ++ [EMakedirs ("sites/" +:+ Str.py_replace "www." "" (netloc w url))])
           (locals st)))
  /\ (forall url (st : state L),
        Str.contains "www." (netloc w url) = false ->
        fst (Util.get_site_folder w url st) = Done ("sites/" +:+ netloc w url))
  /\ (forall url sub rest (st : state L),
        netloc w url = sub +:+ "www." +:+ rest ->
        lacks "w" sub = true ->
        Str.contains "www." rest = false ->
        fst (Util.get_site_folder w url st) = Done ("sites/" +:+ sub +:+ rest))
  /\ (forall url1 url2 (st : state L),
        netloc w url1 = "www." +:+ netloc w url2 ->
        fst (Util.get_site_folder w url1 st) = fst (Util.get_site_folder w url2 st)).
Proof.
  assert (Hrun : forall url (st : state L),
      Util.get_site_folder w url st
      = (Done ("sites/" +:+ Str.py_replace "www." "" (netloc w url)),
         mkState (fs st) (page st)
           (trace st
            ++ [EMakedirs ("sites/" +:+ Str.py_replace "www." "" (netloc w url))])
           (locals st))) by reflexivity.
  split; [exact Hrun|]. split; [|split].
  - intros url st H. rewrite Hrun. cbn [fst]. now rewrite py_replace_absent.
  - intros url sub rest st E Hsub Hrest. rewrite Hrun, E. cbn [fst].
    rewrite (py_replace_copy "w"%char "ww." "" sub _ Hsub).
    rewrite (py_replace_head "w"%char "ww." "" rest).
    now rewrite py_replace_absent.
  - intros url1 url2 st E. rewrite !Hrun, E. cbn [fst].
    now rewrite (py_replace_head "w"%char "ww." "" (netloc w url2)).
Qed.


(** ** What the traces of the loops start with *)






(** ** [upload_to_github] *)

Lemma split_on_nonempty sep s : PyStr.split_on sep s <> [].
Proof.
  destruct s as [|c s]; simpl; [discriminate|].
  destruct (Ascii.eqb c sep); [discriminate|].
  destruct (PyStr.split_on sep s); discriminate.
Qed.

Lemma split_on_lacks sep s : lacks sep s = true -> PyStr.split_on sep s = [s].
Proof.
  induction s as [|c s IH]; intros H; [reflexivity|].
  cbn in H. apply andb_true_iff in H. destruct H as [Hc Hs].
  apply negb_true_iff in Hc. cbn [PyStr.split_on]. rewrite Hc, (IH Hs).
  reflexivity.
Qed.

(** Splitting at a separator: the pieces of what follows it come last. *)
Lemma split_on_app sep a r :
  exists front,
    front <> []
    /\ PyStr.split_on sep (a +:+ String sep r) = (front ++ PyStr.split_on sep r)%list.
Proof.
  induction a as [|c a (front & Hf & IH)].
  - exists [""]. split; [discriminate|].
    change ("" +:+ String sep r) with (String sep r).
    cbn [PyStr.split_on]. now rewrite Ascii.eqb_refl.
  - change (String c a +:+ String sep r) with (String c (a +:+ String sep r)).
    cbn [PyStr.split_on]. rewrite IH.
    destruct (Ascii.eqb c sep).
    + exists ("" :: front). split; [discriminate|reflexivity].
    + destruct front as [|f0 front]; [congruence|].
      exists (String c f0 :: front). split; [discriminate|reflexivity].
Qed.

Lemma split_on_pair sep a b :
  lacks sep a = true -> lacks sep b = true ->
  PyStr.split_on sep (a +:+ String sep b) = [a; b].
Proof.
  intros Ha Hb. induction a as [|c a IH].
  - change ("" +:+ String sep b) with (String sep b).
    cbn [PyStr.split_on]. now rewrite Ascii.eqb_refl, split_on_lacks.
  - cbn in Ha. apply andb_true_iff in Ha. destruct Ha as [Hc Ha].
    apply negb_true_iff in Hc.
    change (String c a +:+ String sep b) with (String c (a +:+ String sep b)).
    cbn [PyStr.split_on]. now rewrite Hc, (IH Ha).
Qed.

Lemma last_app_nonempty {A : Type} (l1 l2 : list A) d :
  l2 <> [] -> List.last (l1 ++ l2) d = List.last l2 d.
Proof.
  intros H. induction l1 as [|x l1 IH]; [reflexivity|].
  simpl. rewrite IH. destruct (l1 ++ l2)%list eqn:E; [|reflexivity].
  apply app_eq_nil in E. destruct E; congruence.
Qed.

(** [os.path.basename] of a path that ends with a slash and a file name. *)
Lemma basename_file dir name :
  lacks "/" name = true -> PyStr.basename (dir +:+ "/" +:+ name) = name.
Proof.
  intros H. unfold PyStr.basename.
  destruct (split_on_app "/" dir name) as (front & _ & E).
  change ("/" +:+ name) with (String "/" name).
  rewrite E, last_app_nonempty by apply split_on_nonempty.
  now rewrite split_on_lacks.
Qed.

(** X4: with a token in the environment, the file present, a repository
    named [owner/repo] and the upload request answered with 200 or 201,
    [upload_to_github] returns the raw URL of the file on branch [main]:
    [https://raw.githubusercontent.com/<owner>/<repo>/main/<file name>].  It
    asks GitHub for the existing file, sends the new content, and leaves
    the files and the page as they are. *)
Theorem upload_returns_raw_url {L : Type} w i dir name owner repo content status
    (st : state L) :
  let path := dir +:+ "/" +:+ name in
  let api_url := "https://api.github.com/repos/" +:+ (owner +:+ "/" +:+ repo)
                 +:+ "/contents/" +:+ name in
  PyStr.truthy (GITHUB_TOKEN w) = true ->
  fs st !! path = Some content ->
  lacks "/" name = true -> lacks "/" owner = true -> lacks "/" repo = true ->
  (forall sha, github_put w i api_url sha content = Returns status) ->
  status = 200 \/ status = 201 ->
  Util.upload_to_github w i path (Some (owner +:+ "/" +:+ repo)) st
  = (Done (Some ("https://raw.githubusercontent.com/" +:+ owner +:+ "/"
                 +:+ repo +:+ "/" +:+ "main" +:+ "/" +:+ name)),
     mkState (fs st) (page st)
       (trace st ++ [EUpload path; EGithubGet api_url; EGithubPut api_url])
       (locals st)).
Proof.
  cbv zeta. intros Htok Hfile Hname Hown Hrepo Hput Hstatus.
  destruct st as [f p t l]. cbv [fs] in Hfile.
  cbv [Util.upload_to_github Util.put_and_build_url bind ret raise call emit
       try_except get_fs fst snd trace fs page locals
       PyStr.str_of_optional].
  rewrite Htok. cbn [negb]. rewrite Hfile.
  rewrite (basename_file dir name Hname). rewrite Hput.
  assert (Hs : ((status =? 201) || (status =? 200))%bool = true)
    by (destruct Hstatus as [-> | ->]; reflexivity).
  rewrite Hs.
  change (owner +:+ "/" +:+ repo) with (owner +:+ String "/" repo).
  rewrite (split_on_pair "/" owner repo Hown Hrepo).
  rewrite <- !app_assoc. reflexivity.
Qed.

(** An upload to a repository that accepts it. *)
Lemma upload_returns_raw_url_demo :
  Util.upload_to_github Demo.world_accepting 0
    ("sites/shop.example.com/img" +:+ "/" +:+ "uuid-0.png")
    (Some ("acme" +:+ "/" +:+ "assets"))
    (mkState (<["sites/shop.example.com/img/uuid-0.png" := "png bytes"]> ∅)
             (mkPage 1920 800 [] []) [] tt)
  = (Done (Some "https://raw.githubusercontent.com/acme/assets/main/uuid-0.png"),
     mkState (<["sites/shop.example.com/img/uuid-0.png" := "png bytes"]> ∅)
             (mkPage 1920 800 [] [])
             [EUpload "sites/shop.example.com/img/uuid-0.png";
              EGithubGet "https://api.github.com/repos/acme/assets/contents/uuid-0.png";
              EGithubPut "https://api.github.com/repos/acme/assets/contents/uuid-0.png"]
             tt).
Proof.
  apply (upload_returns_raw_url Demo.world_accepting 0
           "sites/shop.example.com/img" "uuid-0.png" "acme" "assets"
           "png bytes" 201).
  - reflexivity.
  - reflexivity.
  - reflexivity.
  - reflexivity.
  - reflexivity.
  - reflexivity.
  - right. reflexivity.
Defined.

Ltac norm_upload :=
  cbv [Util.upload_to_github Util.put_and_build_url bind ret raise call emit
       try_except get_fs fst snd trace fs page locals].

Lemma upload_never_raises {L : Type} w i path repo_name (st : state L) :
  fs st !! path <> None ->
  exists r, fst (Util.upload_to_github w i path repo_name st) = Done r.
Proof.
  destruct st as [f p t l]. cbv [fs]. intros Hfile. norm_upload.
  repeat (split_match; norm_upload); try congruence; eauto.
Qed.


(** X5: how [upload_to_github] fails.  When the file is there, the function
    never raises: a missing token, an exception of either request, a status
    other than 200 and 201, a repository name that is not [owner/repo], all
    end in [None].  A URL is returned only when there is a token, the upload
    request has been answered with 200 or 201 and the repository name splits
    in two at its one slash.  The file itself is read outside of any [try]:
    with a token and no such file the function raises [FileNotFoundError]
    before any request is made. *)
Theorem upload_fails_with_None {L : Type} w i path repo_name (st : state L) :
  (fs st !! path <> None ->
     exists r, fst (Util.upload_to_github w i path repo_name st) = Done r)
  /\ (forall url,
        fst (Util.upload_to_github w i path repo_name st) = Done (Some url) ->
        PyStr.truthy (GITHUB_TOKEN w) = true
        /\ exists content api_url sha status rn owner repo,
             fs st !! path = Some content
             /\ github_put w i api_url sha content = Returns status
             /\ (status = 200 \/ status = 201)
             /\ repo_name = Some rn
             /\ PyStr.split_on "/" rn = [owner; repo]
             /\ url = "https://raw.githubusercontent.com/" +:+ owner +:+ "/"
                      +:+ repo +:+ "/" +:+ "main" +:+ "/" +:+ PyStr.basename path)
  /\ (PyStr.truthy (GITHUB_TOKEN w) = true -> fs st !! path = None ->
        Util.upload_to_github w i path repo_name st
        = (Exception "FileNotFoundError",
           mkState (fs st) (page st) (trace st ++ [EUpload path]) (locals st))).
Proof.
  destruct st as [f p t l]. cbv [fs page trace locals].
  split; [|split].
  - apply (upload_never_raises w i path repo_name (mkState f p t l)).
  - intros url. norm_upload.
    repeat (split_match; norm_upload); intros E; try discriminate E.
    all: injection E as <-.
    all: match goal with H : negb _ = false |- _ => apply negb_false_iff in H end.
    all: split; [assumption|].
    all: match goal with
         | H : (_ || _)%bool = true |- _ =>
             apply orb_true_iff in H; destruct H as [H|H]; apply Z.eqb_eq in H
         end.
    all: do 7 eexists; repeat split; try eassumption; auto.
  - intros Htok Hnone. norm_upload. rewrite Htok. cbn [negb]. norm_upload.
    rewrite Hnone. reflexivity.
Qed.

(** ** The order of the inventory among images of equal size *)

Lemma insert_by_size_stable s x l :
  StronglySorted by_size_desc l ->
  List.filter (fun e => size e =? s) (ImageOpt.insert_by_size x l)
  = (List.filter (fun e => size e =? s) l
     ++ (if size x =? s then [x] else []))%list.
Proof.
  induction 1 as [|y l Hs IH Hy]; [reflexivity|].
  cbn [ImageOpt.insert_by_size]. destruct (size y <? size x) eqn:E.
  - apply Z.ltb_lt in E.
    destruct (size x =? s) eqn:Ex; [|now rewrite app_nil_r; simpl; rewrite Ex].
    apply Z.eqb_eq in Ex.
    assert (Hl : List.filter (fun e => size e =? s) l = []).
    { clear IH Hs. induction Hy as [|z l' Hz _ IH']; [reflexivity|].
      simpl. unfold by_size_desc in Hz.
      assert (Hne : (size z =? s) = false) by (apply Z.eqb_neq; lia).
      now rewrite Hne. }
    assert (Hne : (size y =? s) = false) by (apply Z.eqb_neq; lia).
    apply Z.eqb_eq in Ex.
    cbn [List.filter]. rewrite Ex, Hne, Hl. reflexivity.
  - cbn [List.filter]. rewrite IH.
    destruct (size y =? s); reflexivity.
Qed.

Lemma sort_fold_stable s l : forall acc,
  StronglySorted by_size_desc acc ->
  List.filter (fun e => size e =? s)
    (fold_left (fun sorted x => ImageOpt.insert_by_size x sorted) l acc)
  = (List.filter (fun e => size e =? s) acc
     ++ List.filter (fun e => size e =? s) l)%list.
Proof.
  induction l as [|x l IH]; intros acc Hacc; simpl.
  - now rewrite app_nil_r.
  - rewrite IH by now apply insert_by_size_sorted.
    rewrite insert_by_size_stable by exact Hacc.
    rewrite <- app_assoc. destruct (size x =? s); reflexivity.
Qed.

Lemma filter_firstn_prefix {A : Type} (p : A -> bool) (l : list A) : forall n,
  List.filter p (firstn n l)
  = firstn (length (List.filter p (firstn n l))) (List.filter p l).
Proof.
  induction l as [|x l IH]; intros [|n]; try reflexivity.
  cbn [firstn List.filter]. destruct (p x); cbn [length firstn].
  - f_equal. apply IH.
  - apply IH.
Qed.

(** X6: the ranking of the inventory is stable.  Python's [list.sort] with
    [reverse=True] keeps entries of equal size in the order in which the
    images stand in the page, and so does the inventory: for every size,
    the entries of that size are the first ones, in page order, of the
    eligible images of that size. *)
Theorem inventory_keeps_page_order w url (images : list ImgElement) (s : Z) :
  let same_size := fun e : ImageInfo => size e =? s in
  let candidates := map (entry_of w url) (List.filter (eligible w url) images) in
  let inventory := ImageOpt.image_inventory w url images in
  List.filter same_size (ImageOpt.sort_by_size candidates)
  = List.filter same_size candidates
  /\ List.filter same_size inventory
     = firstn (length (List.filter same_size inventory))
              (List.filter same_size candidates).
Proof.
  cbv zeta.
  assert (H : List.filter (fun e => size e =? s)
                (ImageOpt.sort_by_size
                   (map (entry_of w url) (List.filter (eligible w url) images)))
              = List.filter (fun e => size e =? s)
                  (map (entry_of w url) (List.filter (eligible w url) images))).
  { unfold ImageOpt.sort_by_size. rewrite sort_fold_stable by constructor.
    reflexivity. }
  split; [exact H|].
  unfold ImageOpt.image_inventory. rewrite collect_images_filter.
  rewrite <- H. apply filter_firstn_prefix.
Qed.

(** ** The replacement script *)

Lemma replace_first_match_length w targetUrl new_src (l : list ImgElement) :
  match ImageOpt.replace_first_match w targetUrl new_src l with
  | Returns l' => length l' = length l
  | Raises _ => True
  end.
Proof.
  induction l as [|img l IH]; cbn [ImageOpt.replace_first_match]; [reflexivity|].
  destruct (js_href w (ImageOpt.src_property w img)) as [imgUrl|e]; [|exact I].
  destruct (String.eqb (ImageOpt.normalize_url imgUrl)
                       (ImageOpt.normalize_url targetUrl)); [reflexivity|].
  destruct (ImageOpt.replace_first_match w targetUrl new_src l) as [l'|e];
    [|exact I].
  simpl. now rewrite IH.
Qed.


(** The script on a page that names its hero image without [www.] while the
    specialist names it with [www.]: the image is found all the same. *)
Example script_finds_image_without_www :
  ImageOpt.replace_first_match Demo.world_accepting
    "https://www.shop.example.com/hero.png" "https://cdn.example.com/new.png"
    [mkImg (Some "https://shop.example.com/logo.png") None 400 400; Demo.hero;
     Demo.hero]
  = Returns [mkImg (Some "https://shop.example.com/logo.png") None 400 400;
             with_src "https://cdn.example.com/new.png" Demo.hero; Demo.hero].
Proof. reflexivity. Qed.

(** ** The dictionary returned by an image run *)

Lemma last_verdict_snoc r t : last_verdict r (t ++ [EVerdict r]).
Proof. exists t, []. split; reflexivity. Qed.

Lemma last_verdict_other r t e :
  last_verdict r t -> is_verdict e = false -> last_verdict r (t ++ [e]).
Proof.
  intros (t1 & t2 & -> & H) He. exists t1, (t2 ++ [e])%list.
  rewrite <- app_assoc. split; [reflexivity|].
  rewrite count_app, H, count_cons, He. reflexivity.
Qed.

Lemma last_verdict_upload r t path d :
  last_verdict r t -> Forall (fun e => is_upload_event e = true) d ->
  last_verdict r (t ++ EUpload path :: d).
Proof.
  intros (t1 & t2 & -> & H) Hd. exists t1, (t2 ++ EUpload path :: d)%list.
  rewrite <- app_assoc. split; [reflexivity|].
  rewrite count_app, H, count_cons.
  rewrite (count_upload_events is_verdict d); [reflexivity| |exact Hd].
  intros []; simpl; solve [reflexivity | discriminate].
Qed.

Ltac last_verdict_steps :=
  repeat first [ apply last_verdict_snoc
               | assumption
               | apply last_verdict_other; [|reflexivity]
               | apply last_verdict_upload; [|assumption] ].

Lemma image_iteration_locals w prompt change sites_dir i
    (st : state ImageOpt.img_locals) :
  img_locals_ok change st ->
  match ImageOpt.iteration w prompt change sites_dir i st with
  | (Done _, st') => img_locals_ok change st'
  | (_, _) => False
  end.
Proof.
  intros (Hshot & Hjs & Hres). destruct st as [f p t l].
  destruct l as [items nu sb js res].
  cbv [locals trace ImageOpt.screenshot_base64 ImageOpt.js_code
       ImageOpt.new_image_url ImageOpt.result] in Hshot, Hjs, Hres.
  exec.
  all: try use_upload.
  all: norm_run.
  all: try congruence.
  all: unfold img_locals_ok; norm_run.
  all: split; [first [exact Hshot | discriminate]|].
  all: split; [first [exact Hjs | reflexivity]|].
  all: try (destruct res as [r|]).
  all: try solve [last_verdict_steps].
  all: count_steps; rewrite ?Hres; reflexivity.
Qed.

Lemma image_loop_locals w prompt change sites_dir fuel i
    (st : state ImageOpt.img_locals) :
  img_locals_ok change st ->
  match while_true fuel (ImageOpt.iteration w prompt change sites_dir) i st with
  | (Exception _, _) => False
  | (_, st') => img_locals_ok change st'
  end.
Proof.
  intros H.
  pose proof (while_true_rule (ImageOpt.iteration w prompt change sites_dir)
                (fun _ s => img_locals_ok change s)
                (fun o s => match o with
                            | Exception _ => False
                            | _ => img_locals_ok change s
                            end)) as R.
  specialize (R (fun j s Hs => ltac:(
    pose proof (image_iteration_locals w prompt change sites_dir j s Hs) as T;
    destruct (ImageOpt.iteration w prompt change sites_dir j s) as [[[|]| |] s'];
    solve [exact T | destruct T])) (fun _ s Hs => Hs) fuel i st H).
  destruct (while_true fuel (ImageOpt.iteration w prompt change sites_dir) i st)
    as [[] st']; exact R.
Qed.

Ltac proj_img_locals H :=
  cbv [locals trace ImageOpt.screenshot_base64 ImageOpt.js_code
       ImageOpt.new_image_url ImageOpt.result] in H.

Ltac proj_img_result :=
  repeat match goal with
  | H : _ = _ |- _ =>
      progress cbn [ImageOpt.original_image_url ImageOpt.image_specialist_response
                    ImageOpt.res_screenshot ImageOpt.res_js_code
                    ImageOpt.res_new_image_url ImageOpt.evaluator_response] in H
  end.

(** X8: the dictionary that an image run returns is coherent with what the
    run did.  It names the image and the description that the specialist
    chose; it always holds a screenshot (the one of the untouched page when
    the loop ended before any new one was taken); its script, when there is
    one, is the replacement script rendered for exactly the new URL of the
    dictionary, and without a script there is no new URL; and its evaluator
    response is the feedback of the last verdict received, absent exactly
    when the evaluator gave no verdict. *)
Theorem image_result_is_coherent w url prompt fuel files res :
  let r := ImageOpt.run w url prompt fuel files in
  let shot := mkShot true (mkPage 1920 800 (loaded_imgs w) []) in
  let items :=
    ImageOpt.specialist_items (png_of w shot)
      (ImageOpt.image_inventory w url (loaded_imgs w)) in
  fst r = Done (Some res) ->
  image_specialist w items
  = Returns (Some (mkImageChange (ImageOpt.original_image_url res)
                                 (ImageOpt.image_specialist_response res)))
  /\ ImageOpt.res_screenshot res <> None
  /\ match ImageOpt.res_js_code res with
     | Some js =>
         js = ImageOpt.render_js_code (ImageOpt.original_image_url res)
                                      (ImageOpt.res_new_image_url res)
     | None => ImageOpt.res_new_image_url res = None
     end
  /\ match ImageOpt.evaluator_response res with
     | Some fb => exists verdict,
                    last_verdict verdict (trace (snd r)) /\ feedback verdict = fb
     | None => count is_verdict (trace (snd r)) = 0%nat
     end.
Proof.
  cbv zeta. norm_top.
  repeat (split_match; norm_top).
  all: intros E; try discriminate E.
  all: injection E as <-.
  all: match goal with
       | H : while_true ?f (ImageOpt.iteration ?w ?pr ?ch ?sd) ?i ?st = _ |- _ =>
           let T := fresh "T" in
           assert (T : img_locals_ok ch st)
             by (split; [discriminate|split; [exact I|reflexivity]]);
           apply (image_loop_locals w pr ch sd f i) in T; rewrite H in T; clear H
       end.
  all: subst; destruct T as (Tshot & Tjs & Tres).
  all: proj_img_locals Tshot; proj_img_locals Tjs; proj_img_locals Tres.
  all: cbn [ImageOpt.original_image_url ImageOpt.image_specialist_response
            ImageOpt.res_screenshot ImageOpt.res_js_code
            ImageOpt.res_new_image_url ImageOpt.evaluator_response].
  all: proj_img_result; subst; try contradiction.
  all: split; [match goal with c : ImageChange |- _ => now destruct c end|].
  all: split; [exact Tshot|].
  all: split; [first [exact Tjs | reflexivity]|].
  all: try (injection Heqo4 as <-).
  all: try (injection Heqo3 as <-).
  all: try (eexists; split; [apply last_verdict_other; [eassumption|reflexivity]
                            |reflexivity]).
  all: try discriminate.
  all: count_steps; rewrite ?Tres; reflexivity.
Qed.

(** The run that is accepted at once: the response of its dictionary is the
    feedback of the one verdict, and its script is the one rendered for the
    URL of the uploaded image. *)
Lemma image_result_demo :
  let r := ImageOpt.run Demo.world_accepting Demo.www_shop_url "prompt" 1 ∅ in
  let new_url := "https://raw.githubusercontent.com/acme/assets/main/uuid-0.png" in
  let res :=
    ImageOpt.mkImageResult "Brighter hero image" "https://shop.example.com/hero.png"
      (Some new_url) (Some "full-page.png")
      (Some (ImageOpt.render_js_code "https://shop.example.com/hero.png"
               (Some new_url)))
      (Some "Looks right.") in
  fst r = Done (Some res)
  /\ exists verdict,
       last_verdict verdict (trace (snd r)) /\ feedback verdict = "Looks right.".
Proof.
  cbv zeta.
  assert (H : fst (ImageOpt.run Demo.world_accepting Demo.www_shop_url "prompt" 1 ∅)
              = Done (Some (ImageOpt.mkImageResult "Brighter hero image"
                   "https://shop.example.com/hero.png"
                   (Some "https://raw.githubusercontent.com/acme/assets/main/uuid-0.png")
                   (Some "full-page.png")
                   (Some (ImageOpt.render_js_code "https://shop.example.com/hero.png"
                            (Some "https://raw.githubusercontent.com/acme/assets/main/uuid-0.png")))
                   (Some "Looks right."))))
    by (vm_compute; reflexivity).
  split; [exact H|].
  exact (proj2 (proj2 (proj2 (image_result_is_coherent _ _ _ _ _ _ H)))).
Defined.

(** ** Exceptions and the closing of the browser *)

Ltac count_any :=
  repeat first [ rewrite count_app | rewrite count_cons | rewrite count_nil ];
  repeat match goal with
  | Hd : Forall (fun e => is_upload_event e = true) ?d |- context [count ?p ?d] =>
      rewrite (count_upload_events p d
                 ltac:(intros []; simpl; solve [reflexivity | discriminate]) Hd)
  end.




Lemma text_iteration_no_close w site_folder i (st : state TextOpt.txt_locals) :
  exists d,
    trace (snd (TextOpt.iteration w site_folder i st)) = (trace st ++ d)%list
    /\ count is_browser_close d = 0%nat.
Proof.
  destruct st as [f p t l].
  exec.
  all: rewrite <- ?app_assoc; simpl app.
  all: eexists; split; [reflexivity|].
  all: count_any; reflexivity.
Qed.

Lemma text_loop_no_close w site_folder fuel i (st : state TextOpt.txt_locals) :
  exists d,
    trace (snd (while_true fuel (TextOpt.iteration w site_folder) i st))
    = (trace st ++ d)%list
    /\ count is_browser_close d = 0%nat.
Proof.
  revert i st. induction fuel as [|fuel IH]; intros i st; simpl.
  - exists []. rewrite app_nil_r. split; reflexivity.
  - unfold bind.
    destruct (text_iteration_no_close w site_folder i st) as (d & E & Hd).
    destruct (TextOpt.iteration w site_folder i st)
      as [[[|]| |] st'] eqn:Eit; simpl in E |- *; eauto.
    destruct (IH (S i) st') as (d' & E' & Hd').
    exists (d ++ d')%list. rewrite E', E, <- app_assoc. split; [reflexivity|].
    rewrite count_app. lia.
Qed.

(** X10: a text run catches nothing in its loop.  When the coder raises,
    or the script that it proposed throws in the page, the loop and the run
    end with that exception, at whatever iteration; the script that threw
    has already been saved in [script.js], and the log is not written.  A
    run that ends with an exception has not closed the browser; a run that
    returns has closed it exactly once, as its last call. *)
Theorem text_run_raises w url fuel files :
  (match fst (TextOpt.run w url fuel files) with
   | Done _ =>
       exists before,
         trace (snd (TextOpt.run w url fuel files)) = (before ++ [EBrowserClose])%list
         /\ count is_browser_close before = 0%nat
   | _ => count is_browser_close (trace (snd (TextOpt.run w url fuel files))) = 0%nat
   end)
  /\ (forall site_folder i (st : state TextOpt.txt_locals) e,
        coder w i (TextOpt.input_items (locals st)) = Raises e ->
        while_true (S fuel) (TextOpt.iteration w site_folder) i st
        = (Exception e,
           mkState (fs st) (page st)
             (trace st ++ [ERunCoder (TextOpt.input_items (locals st))])
             (locals st)))
  /\ (forall site_folder i (st : state TextOpt.txt_locals) out,
        coder w i (TextOpt.input_items (locals st)) = Returns out ->
        js_throws w (evaluated (page st)) (script out) = true ->
        let r := while_true (S fuel) (TextOpt.iteration w site_folder) i st in
        fst r = Exception "playwright Error"
        /\ fs (snd r) = <[site_folder +:+ "/script.js" := script out]> (fs st)
        /\ page (snd r) = page st
        /\ trace (snd r)
           = (trace st
              ++ [ERunCoder (TextOpt.input_items (locals st));
                  EWrite (site_folder +:+ "/script.js") (script out);
                  EPageEvaluate (script out)])%list).
Proof.
  split; [|split].
  - norm_top. rewrite site_folder_truthy. norm_top.
    repeat (split_match; norm_top).
    all: try (match goal with
         | H : while_true ?f (TextOpt.iteration ?w ?sf) ?i ?st = _ |- _ =>
             destruct (text_loop_no_close w sf f i st) as (d & E & Hd);
             pose proof (text_loop_log w sf f i st) as T; cbv zeta in T;
             rewrite H in E, T; clear H; proj_in E; proj_in T
         end).
    all: subst; norm_top.
    all: try (destruct T as (out & T1 & T2 & T3 & _); simpl in T1, T2, T3;
              congruence).
    all: try (eexists; split; [reflexivity|count_any; simpl; lia]).
    all: count_any; simpl; lia.
  - intros site_folder i st e He. destruct st as [f p t [items cr rs shot]].
    cbn [while_true]. norm_run. cbv [locals TextOpt.input_items] in He.
    rewrite He. reflexivity.
  - intros site_folder i st out Hc Hj.
    destruct st as [f [vw vh im ev] t [items cr rs shot]]. cbv zeta.
    cbn [while_true]. norm_run.
    cbv [locals page evaluated TextOpt.input_items] in Hc, Hj.
    rewrite Hc. norm_run. rewrite Hj. norm_run.
    rewrite <- !app_assoc. repeat split.
Qed.

(** ** The files that a run writes *)

Lemma only_changes_refl P f : only_changes P f f.
Proof. split; auto. Qed.

Lemma only_changes_trans P f g h :
  only_changes P f g -> only_changes P g h -> only_changes P f h.
Proof.
  intros [H1 H2] [H3 H4]. split.
  - intros path Hp. now rewrite H3, H1.
  - auto.
Qed.

Lemma only_changes_insert P f g path v :
  only_changes P f g -> P path -> only_changes P f (<[path := v]> g).
Proof.
  intros [H1 H2] Hp. split.
  - intros q Hq. rewrite lookup_insert_ne; [now apply H1|].
    intros ->. contradiction.
  - intros q Hq. destruct (decide (path = q)) as [->|Hne].
    + rewrite lookup_insert_eq. eauto.
    + rewrite lookup_insert_ne by exact Hne. auto.
Qed.

Ltac only_changes_steps :=
  repeat (apply only_changes_insert;
          [|first [ now left | now right | now (right; left)
                  | now (right; right) | left; eexists; reflexivity ]]);
  apply only_changes_refl.


Lemma image_iteration_files w prompt change sites_dir i
    (st : state ImageOpt.img_locals) :
  only_changes (image_run_files w sites_dir) (fs st)
    (fs (snd (ImageOpt.iteration w prompt change sites_dir i st))).
Proof.
  destruct st as [f p t l]. exec.
  all: try use_upload.
  all: norm_run.
  all: only_changes_steps.
Qed.

Lemma while_true_files {L : Type} (body : nat -> M L flow) P :
  (forall i st, only_changes P (fs st) (fs (snd (body i st)))) ->
  forall fuel i st, only_changes P (fs st) (fs (snd (while_true fuel body i st))).
Proof.
  intros Hbody. induction fuel as [|fuel IH]; intros i st; simpl.
  - apply only_changes_refl.
  - unfold bind. specialize (Hbody i st).
    destruct (body i st) as [[[|]| |] st']; simpl in Hbody |- *; auto.
    eapply only_changes_trans; [exact Hbody|apply IH].
Qed.


(** X12: its temporary file apart, the only files that an image run writes
    are, in the image folder of the site, the generated images
    [<uuid>.png], the screenshot [after_replacement.png] and [log.txt]:
    every other file is after the run what it was before, and the run
    removes none of them, not even the generated images of the attempts
    that were rejected. *)
Theorem image_run_writes_in_img_folder w url prompt fuel files :
  let sites_dir :=
    PyStr.path_join
      (PyStr.path_join "sites" (Str.py_replace "www." "" (netloc w url))) "img" in
  let files' := fs (snd (ImageOpt.run w url prompt fuel files)) in
  (forall path,
      (forall i, path <> PyStr.path_join sites_dir (uuid4 w i +:+ ".png")) ->
      path <> PyStr.path_join sites_dir "after_replacement.png" ->
      path <> sites_dir +:+ "/log.txt" ->
      files' !! path = files !! path)
  /\ (forall path, is_Some (files !! path) -> is_Some (files' !! path)).
Proof.
  cbv zeta.
  assert (H : only_changes
                (image_run_files w
                   (PyStr.path_join
                      (PyStr.path_join "sites"
                         (Str.py_replace "www." "" (netloc w url))) "img"))
                files (fs (snd (ImageOpt.run w url prompt fuel files)))).
  { norm_top.
    repeat (split_match; norm_top).
    all: try apply only_changes_refl.
    all: match goal with
         | H : while_true ?f (ImageOpt.iteration ?w ?pr ?ch ?sd) ?i ?st = _ |- _ =>
             pose proof (while_true_files (ImageOpt.iteration w pr ch sd) _
                           (image_iteration_files w pr ch sd) f i st) as T;
             rewrite H in T; clear H; proj_in T
         end.
    all: subst; exact T. }
  destruct H as [H1 H2]. split; [|exact H2].
  intros path Hu Ha Hl. apply H1. intros [[i E]|[E|E]].
  - exact (Hu i E).
  - contradiction.
  - contradiction.
Qed.

(** ** The dictionary returned by a text run *)

Lemma text_iteration_accepted w site_folder i (st : state TextOpt.txt_locals) :
  match TextOpt.iteration w site_folder i st with
  | (Done Break, st') => accepted w site_folder st'
  | _ => True
  end.
Proof.
  destruct st as [f p t l]. exec. all: try exact I.
  unfold accepted. norm_run. do 2 eexists.
  split; [reflexivity|]. split; [reflexivity|].
  split; [now apply String.eqb_eq|]. split; [reflexivity|].
  split; [rewrite lookup_insert_ne by (symmetry; apply script_is_not_log);
          apply lookup_insert_eq|].
  split; [eexists; rewrite <- app_assoc; reflexivity|].
  last_verdict_steps.
Qed.

Lemma text_loop_accepted w site_folder fuel i (st : state TextOpt.txt_locals) :
  match while_true fuel (TextOpt.iteration w site_folder) i st with
  | (Done _, st') => accepted w site_folder st'
  | _ => True
  end.
Proof.
  pose proof (while_true_rule (TextOpt.iteration w site_folder)
                (fun _ _ => True)
                (fun o s => match o with
                            | Done _ => accepted w site_folder s
                            | _ => True
                            end)) as R.
  specialize (R (fun j s _ => ltac:(
    pose proof (text_iteration_accepted w site_folder j s) as T;
    destruct (TextOpt.iteration w site_folder j s) as [[[|]| |] s'];
    solve [exact T | exact I])) (fun _ _ _ => I) fuel i st I).
  destruct (while_true fuel (TextOpt.iteration w site_folder) i st)
    as [[] st']; exact R.
Qed.

Ltac proj_accepted H :=
  cbv [locals trace fs page TextOpt.coder_result TextOpt.result
       TextOpt.final_screenshot evaluated] in H.


(** X13: the dictionary that a text run returns describes the accepted
    proposal.  Its script and its description are those of the last
    proposal of the coder; that script is the content of [script.js], and
    it is the last script evaluated on the page, twice in a row; the
    evaluator response is the feedback of the last verdict, whose score is
    ["pass"]; and the screenshot is the one of the page, in its viewport,
    as the run leaves it. *)
Theorem text_result_is_coherent w url fuel files res :
  let r := TextOpt.run w url fuel files in
  let site_folder := "sites/" +:+ Str.py_replace "www." "" (netloc w url) in
  fst r = Done res ->
  exists out verdict earlier,
    res = TextOpt.mkTextResult (js_change_description out) (feedback verdict)
            (png_of w (mkShot false (page (snd r)))) (script out)
    /\ score verdict = "pass"
    /\ last_verdict verdict (trace (snd r))
    /\ fs (snd r) !! (site_folder +:+ "/script.js") = Some (script out)
    /\ evaluated (page (snd r)) = (earlier ++ [script out; script out])%list.
Proof.
  cbv zeta. norm_top.
  repeat (split_match; norm_top).
  all: intros E; try discriminate E.
  all: injection E as <-.
  all: match goal with
       | H : while_true ?f (TextOpt.iteration ?w ?sf) ?i ?st = _ |- _ =>
           pose proof (text_loop_accepted w sf f i st) as T;
           rewrite H in T; clear H
       end.
  all: subst.
  all: destruct T as (out & verdict & T1 & T2 & T3 & T4 & T5 & (earlier & T6) & T7).
  all: proj_accepted T1; proj_accepted T2; proj_accepted T4; proj_accepted T5;
       proj_accepted T6; proj_accepted T7.
  all: injection T1 as <-; injection T2 as <-; injection T4 as <-.
  all: eexists _, _, earlier.
  all: split; [reflexivity|]. 
  all: split; [exact T3|].
  all: split; [apply last_verdict_other; [exact T7|reflexivity]|].
  all: split; [exact T5|exact T6].
Qed.

(** The run of three attempts returns its third proposal, which is what
    [script.js] holds. *)
Lemma text_result_demo :
  let r := TextOpt.run Demo.world_fail_fail_pass Demo.www_shop_url 3 ∅ in
  exists out verdict earlier,
    TextOpt.mkTextResult "Headline, attempt 3" "Looks right." "viewport.png"
      (script (Demo.three_proposals 2))
    = TextOpt.mkTextResult (js_change_description out) (feedback verdict)
        (png_of Demo.world_fail_fail_pass (mkShot false (page (snd r))))
        (script out)
    /\ score verdict = "pass"
    /\ last_verdict verdict (trace (snd r))
    /\ fs (snd r) !! ("sites/" +:+ Str.py_replace "www." ""
                        (netloc Demo.world_fail_fail_pass Demo.www_shop_url)
                      +:+ "/script.js")
       = Some (script out)
    /\ evaluated (page (snd r)) = (earlier ++ [script out; script out])%list.
Proof.
  apply (text_result_is_coherent Demo.world_fail_fail_pass Demo.www_shop_url 3 ∅).
  vm_compute. reflexivity.
Defined.

(** ** The conversation handed to the agents of a text run *)

Lemma growing_app t1 : forall prev t2,
  growing prev (t1 ++ t2) <-> growing prev t1 /\ growing (last_input prev t1) t2.
Proof.
  induction t1 as [|e t1 IH]; intros prev t2; simpl.
  - tauto.
  - destruct (agent_input e) as [items|]; rewrite IH; tauto.
Qed.

Lemma last_input_app prev t1 t2 :
  last_input prev (t1 ++ t2) = last_input (last_input prev t1) t2.
Proof. unfold last_input. apply fold_left_app. Qed.

Lemma text_iteration_conversation w site_folder i (st : state TextOpt.txt_locals) :
  conversation_ok st ->
  match TextOpt.iteration w site_folder i st with
  | (Done Continue, st') => conversation_ok st'
  | (_, st') => growing [] (trace st')
  end.
Proof.
  intros (Hg & (more & Hin)).
  destruct st as [f p t [items cr rs shot]].
  cbv [locals trace TextOpt.input_items] in Hg, Hin.
  exec.
  all: unfold conversation_ok; norm_run.
  all: repeat rewrite growing_app; repeat rewrite last_input_app.
  all: cbn [growing last_input fold_left agent_input].
  all: repeat match goal with |- _ /\ _ => split end.
  all: try exact I.
  all: try assumption.
  all: try (eexists; eassumption).
  all: eexists; rewrite <- ?app_assoc; reflexivity.
Qed.

Lemma text_loop_conversation w site_folder fuel i (st : state TextOpt.txt_locals) :
  conversation_ok st ->
  growing [] (trace (snd (while_true fuel (TextOpt.iteration w site_folder) i st))).
Proof.
  intros H.
  apply (while_true_rule (TextOpt.iteration w site_folder)
           (fun _ s => conversation_ok s)
           (fun _ s => growing [] (trace s))); [| |exact H].
  - intros j s Hs.
    pose proof (text_iteration_conversation w site_folder j s Hs) as T.
    destruct (TextOpt.iteration w site_folder j s) as [[[|]| |] s']; exact T.
  - intros j s (Hg & _). exact Hg.
Qed.

(** X14: the conversation of a text run only grows.  Every call to an
    agent, coder or evaluator, is given the conversation of the call before
    it with further messages at its end: the proposal and the request with
    the new screenshot for the evaluator, the feedback for the coder.
    Nothing that an agent has been shown is dropped or rewritten later in
    the run, however the run ends. *)
Theorem conversation_only_grows w url fuel files :
  growing [] (trace (snd (TextOpt.run w url fuel files))).
Proof.
  norm_top.
  repeat (split_match; norm_top).
  all: try exact I.
  all: match goal with
       | H : while_true ?f (TextOpt.iteration ?w ?sf) ?i ?st = _ |- _ =>
           let T := fresh "T" in
           assert (T : conversation_ok st)
             by (split; [exact I|eexists; reflexivity]);
           apply (text_loop_conversation w sf f i st) in T;
           rewrite H in T; clear H; proj_in T
       end.
  all: subst.
  all: try exact T.
  all: rewrite growing_app; cbn [growing agent_input].
  all: split; [exact T|exact I].
Qed.

(** The run of three attempts: its six calls to the agents are given two,
    four, five, seven, eight and ten messages. *)
Example conversation_of_three_attempts :
  map (@length message)
      (flat_map (fun e => match agent_input e with Some items => [items] | None => [] end)
         (trace (snd (TextOpt.run Demo.world_fail_fail_pass Demo.www_shop_url 3 ∅))))
  = [2; 4; 5; 7; 8; 10]%nat.
Proof. vm_compute. reflexivity. Qed.

(** ** The page during an image run *)

(** What the replacement script changes of the page. *)
Lemma run_replacement_frame w image_url new_image_url p p' :
  ImageOpt.run_replacement w image_url new_image_url p = Returns p' ->
  viewport_width p' = viewport_width p
  /\ viewport_height p' = viewport_height p
  /\ length (imgs p') = length (imgs p)
  /\ evaluated p'
     = (evaluated p ++ [ImageOpt.render_js_code image_url new_image_url])%list.
Proof.
  unfold ImageOpt.run_replacement.
  destruct (js_href w image_url) as [targetUrl|e]; [|discriminate].
  pose proof (replace_first_match_length w targetUrl
                (PyStr.str_of_optional new_image_url) (imgs p)) as Hlen.
  destruct (ImageOpt.replace_first_match w targetUrl
              (PyStr.str_of_optional new_image_url) (imgs p)) as [l'|e];
    [|discriminate].
  intros E. injection E as <-. simpl. auto.
Qed.

Lemma forallb_snoc {A : Type} (p : A -> bool) l x :
  forallb p (l ++ [x]) = forallb p l && p x.
Proof. rewrite forallb_app. simpl. now rewrite andb_true_r. Qed.

Lemma upload_events_keep_viewport d :
  Forall (fun e => is_upload_event e = true) d -> forallb keeps_viewport d = true.
Proof.
  induction 1 as [|e d He _ IH]; [reflexivity|].
  simpl. rewrite IH. destruct e; try discriminate; reflexivity.
Qed.

Ltac use_replacement :=
  match goal with
  | H : ImageOpt.run_replacement ?w ?u ?n ?p = Returns ?p' |- _ =>
      let H1 := fresh "Hvw" in let H2 := fresh "Hvh" in
      let H3 := fresh "Him" in let H4 := fresh "Hev" in
      destruct (run_replacement_frame w u n p p' H) as (H1 & H2 & H3 & H4);
      clear H; destruct p'; cbv [viewport_width viewport_height imgs evaluated] in *;
      subst
  end.

Lemma image_iteration_page w prompt change sites_dir i n
    (st : state ImageOpt.img_locals) :
  image_page_ok n st ->
  image_page_ok n (snd (ImageOpt.iteration w prompt change sites_dir i st)).
Proof.
  intros (Hw & Hh & Hn & Ht). destruct st as [f [vw vh im ev] t l].
  cbv [page trace viewport_width viewport_height imgs] in Hw, Hh, Hn, Ht. subst.
  exec.
  all: try use_upload.
  all: norm_run.
  all: try use_replacement.
  all: unfold image_page_ok; norm_run.
  all: repeat split; try reflexivity; try assumption.
  all: repeat first [ rewrite forallb_snoc | rewrite forallb_app ].
  all: cbn [forallb keeps_viewport full_page shot_of viewport_width viewport_height
            andb Z.eqb Pos.eqb].
  all: rewrite ?Ht, ?(upload_events_keep_viewport _ Hd); reflexivity.
Qed.

Lemma image_loop_page w prompt change sites_dir n fuel : forall i
    (st : state ImageOpt.img_locals),
  image_page_ok n st ->
  image_page_ok n
    (snd (while_true fuel (ImageOpt.iteration w prompt change sites_dir) i st)).
Proof.
  induction fuel as [|fuel IH]; intros i st H; simpl; [exact H|].
  unfold bind.
  pose proof (image_iteration_page w prompt change sites_dir i n st H) as T.
  destruct (ImageOpt.iteration w prompt change sites_dir i st)
    as [[[|]| |] st']; simpl in T |- *; auto.
Qed.

(** X15: an image run never resizes the viewport.  The page keeps its
    1920 x 800 viewport from the first call to the last, every screenshot
    of the run is a full-page screenshot taken in that viewport, and the
    replacement scripts leave the number of images of the page as it
    was. *)
Theorem image_run_keeps_viewport w url prompt fuel files :
  let st := snd (ImageOpt.run w url prompt fuel files) in
  viewport_width (page st) = 1920
  /\ viewport_height (page st) = 800
  /\ length (imgs (page st)) = length (loaded_imgs w)
  /\ forallb keeps_viewport (trace st) = true.
Proof.
  cbv zeta.
  change (image_page_ok (length (loaded_imgs w))
            (snd (ImageOpt.run w url prompt fuel files))).
  norm_top.
  repeat (split_match; norm_top).
  all: try (repeat split; reflexivity).
  all: match goal with
       | H : while_true ?f (ImageOpt.iteration ?w ?pr ?ch ?sd) ?i ?st = _ |- _ =>
           let T := fresh "T" in
           assert (T : image_page_ok (length (loaded_imgs w)) st)
             by (repeat split; reflexivity);
           apply (image_loop_page w pr ch sd _ f i) in T; rewrite H in T; clear H
       end.
  all: subst; destruct T as (T1 & T2 & T3 & T4); proj_in T1; proj_in T2;
       proj_in T3; proj_in T4.
  all: unfold image_page_ok; norm_top.
  all: rewrite ?forallb_snoc, ?T4.
  all: repeat split; assumption.
Qed.

(** ** The request to the image specialist *)

Lemma specialist_parts_length (image_list : list ImageInfo) :
  length (flat_map (fun image =>
            [input_text (PyStr.nl +:+ "                                This image url is: "
                         +:+ src image +:+ PyStr.nl +:+ "                                ");
             input_image (src image)]) image_list)
  = (2 * length image_list)%nat.
Proof. induction image_list as [|x l IH]; simpl; [reflexivity|]. rewrite IH. lia. Qed.

Lemma specialist_parts_images (image_list : list ImageInfo) :
  image_parts (flat_map (fun image =>
            [input_text (PyStr.nl +:+ "                                This image url is: "
                         +:+ src image +:+ PyStr.nl +:+ "                                ");
             input_image (src image)]) image_list)
  = map src image_list.
Proof.
  induction image_list as [|x l IH]; [reflexivity|].
  cbn [flat_map app]. unfold image_parts in *. cbn [flat_map app].
  now rewrite IH.
Qed.

(** X16: the request to the image specialist is bounded.  It is one user
    message: a text, the full-page screenshot of the page as loaded, and for
    each image of the inventory, in the order of the inventory, a text that
    names its URL and the image itself; at most ten images, hence at most 22
    parts, however many images the page holds. *)
Theorem specialist_request_is_bounded w url prompt fuel files :
  let inventory := ImageOpt.image_inventory w url (loaded_imgs w) in
  let shot := mkShot true (mkPage 1920 800 (loaded_imgs w) []) in
  inventory <> [] ->
  exists text parts rest,
    trace (snd (ImageOpt.run w url prompt fuel files))
    = EScreenshot shot
      :: ERunSpecialist [User (Parts (input_text text :: parts))] :: rest
    /\ length parts = (1 + 2 * length inventory)%nat
    /\ (length parts <= 21)%nat
    /\ image_parts parts
       = ("data:image/jpeg;base64," +:+ png_of w shot) :: map src inventory.
Proof.
  cbv zeta. intros Hinv.
  destruct (image_run_specialist_once w url prompt fuel files Hinv)
    as (rest & E & _).
  unfold ImageOpt.specialist_items in E.
  eexists _, _, rest. split; [exact E|].
  cbn [length]. rewrite specialist_parts_length.
  split; [reflexivity|]. split.
  - unfold ImageOpt.image_inventory. 
    pose proof (length_firstn 10
                  (ImageOpt.sort_by_size
                     (ImageOpt.collect_images w url (loaded_imgs w)))) as H.
    rewrite H. lia.
  - change (image_parts (?p :: ?l)) with (image_parts [p] ++ image_parts l)%list.
    rewrite specialist_parts_images. reflexivity.
Qed.

(** The page of the three images: two of them are shown to the specialist,
    the larger one first. *)
Lemma specialist_request_demo :
  exists text parts rest,
    trace (snd (ImageOpt.run Demo.three_world Demo.shop_url "prompt" 1 ∅))
    = EScreenshot (mkShot true (mkPage 1920 800 Demo.three_images []))
      :: ERunSpecialist [User (Parts (input_text text :: parts))] :: rest
    /\ length parts
       = (1 + 2 * length (ImageOpt.image_inventory Demo.three_world Demo.shop_url
                            Demo.three_images))%nat
    /\ (length parts <= 21)%nat
    /\ image_parts parts
       = ("data:image/jpeg;base64,"
          +:+ png_of Demo.three_world
                (mkShot true (mkPage 1920 800 Demo.three_images [])))
         :: map src (ImageOpt.image_inventory Demo.three_world Demo.shop_url
                       Demo.three_images).
Proof.
  apply (specialist_request_is_bounded Demo.three_world Demo.shop_url "prompt" 1 ∅).
  vm_compute. discriminate.
Defined.

(** ** Where the folders of a site are *)









(** ** [main] *)

Lemma with_scheme_starts url :
  (Str.startswith (Main.with_scheme url) "http://"
   || Str.startswith (Main.with_scheme url) "https://")%bool = true.
Proof.
  unfold Main.with_scheme.
  destruct (Str.startswith url "http://" || Str.startswith url "https://")%bool
    eqn:E; cbn [negb]; [exact E|].
  unfold Str.startswith. rewrite (prefix_append "https://" url). apply orb_true_r.
Qed.

(** X18: [main] starts an optimisation only with an API key and a URL.
    Without a key, or with an empty URL, no optimisation is called, whatever
    the buttons say.  The URL handed to an optimisation always starts with
    [http://] or [https://]: it is the text of the input when that text
    starts so, and the text preceded by [https://] otherwise (the test is
    sensitive to case, so [HTTP://a.com] becomes [https://HTTP://a.com]);
    adding the scheme twice is adding it once. *)
Theorem main_guards_the_runs (v : Main.widgets) :
  (Main.openai_api_key v = "" ->
     forall e, In e (Main.main v) -> Main.run_url e = None)
  /\ (Main.url_input v = "" ->
        forall e, In e (Main.main v) -> Main.run_url e = None)
  /\ (forall e u, In e (Main.main v) -> Main.run_url e = Some u ->
        Main.openai_api_key v <> ""
        /\ Main.url_input v <> ""
        /\ u = Main.with_scheme (Main.url_input v)
        /\ (Str.startswith u "http://" || Str.startswith u "https://")%bool = true
        /\ (u = Main.url_input v \/ u = "https://" +:+ Main.url_input v))
  /\ (forall url, Main.with_scheme (Main.with_scheme url) = Main.with_scheme url)
  /\ Main.with_scheme "HTTP://a.com" = "https://HTTP://a.com".
Proof.
  assert (Hrun : forall e u, In e (Main.main v) -> Main.run_url e = Some u ->
            Main.openai_api_key v <> "" /\ Main.url_input v <> ""
            /\ u = Main.with_scheme (Main.url_input v)).
  { intros e u. unfold Main.main.
    destruct (String.eqb (Main.openai_api_key v) "") eqn:Ek;
      destruct (String.eqb (Main.url_input v) "") eqn:Eu;
      destruct (Main.image_button v); destruct (Main.text_button v);
      cbn [negb app In]; intros Hin Hu;
      repeat match goal with
      | H : _ \/ _ |- _ => destruct H as [H|H]
      | H : False |- _ => destruct H
      end; subst e; try discriminate Hu.
    all: injection Hu as <-.
    all: apply String.eqb_neq in Ek, Eu; auto. }
  split; [|split; [|split; [|split]]].
  - intros Hk e Hin. destruct (Main.run_url e) as [u|] eqn:E; [|reflexivity].
    destruct (Hrun e u Hin E) as (H & _). contradiction.
  - intros Hu e Hin. destruct (Main.run_url e) as [u|] eqn:E; [|reflexivity].
    destruct (Hrun e u Hin E) as (_ & H & _). contradiction.
  - intros e u Hin E. destruct (Hrun e u Hin E) as (Hk & Hu & ->).
    split; [exact Hk|]. split; [exact Hu|]. split; [reflexivity|].
    split; [apply with_scheme_starts|].
    unfold Main.with_scheme.
    destruct (negb _); [now right|now left].
  - intros url. pose proof (with_scheme_starts url) as H.
    unfold Main.with_scheme at 1. now rewrite H.
  - reflexivity.
Qed.

(** ** [run_script] *)



(** ** The attempts of an image run *)

Ltac count_events :=
  count_any;
  cbn [is_download is_generation is_verdict is_fail_verdict is_browser_close];
  repeat match goal with Hs : String.eqb _ _ = _ |- _ => rewrite Hs end;
  cbn [negb].

Lemma image_iteration_attempts w prompt change sites_dir i
    (st : state ImageOpt.img_locals) :
  attempts_ok (trace st) ->
  count is_download (trace st) = count is_fail_verdict (trace st) ->
  match ImageOpt.iteration w prompt change sites_dir i st with
  | (Done Continue, st') =>
      attempts_ok (trace st')
      /\ count is_download (trace st') = count is_fail_verdict (trace st')
  | (Done Break, st') =>
      attempts_ok (trace st')
      /\ count is_download (trace st') = S (count is_fail_verdict (trace st'))
  | (_, _) => False
  end.
Proof.
  unfold attempts_ok. destruct st as [f p t l]. cbv [trace]. intros Ha Hd.
  exec.
  all: try use_upload.
  all: norm_run.
  all: try congruence.
  all: count_events; lia.
Qed.

Lemma image_loop_attempts w prompt change sites_dir fuel i
    (st : state ImageOpt.img_locals) :
  attempts_ok (trace st) ->
  count is_download (trace st) = count is_fail_verdict (trace st) ->
  let r := while_true fuel (ImageOpt.iteration w prompt change sites_dir) i st in
  attempts_ok (trace (snd r))
  /\ match fst r with
     | Done _ => count is_download (trace (snd r))
                 = S (count is_fail_verdict (trace (snd r)))
     | Exception _ => False
     | OutOfFuel => count is_download (trace (snd r))
                    = count is_fail_verdict (trace (snd r))
     end.
Proof.
  intros Ha Hd. cbv zeta.
  apply (while_true_rule (ImageOpt.iteration w prompt change sites_dir)
           (fun _ s => attempts_ok (trace s)
                       /\ count is_download (trace s) = count is_fail_verdict (trace s))
           (fun o s => attempts_ok (trace s)
                       /\ match o with
                          | Done _ => count is_download (trace s)
                                      = S (count is_fail_verdict (trace s))
                          | Exception _ => False
                          | OutOfFuel => count is_download (trace s)
                                         = count is_fail_verdict (trace s)
                          end)); [| |split; assumption].
  - intros j s (Hs1 & Hs2).
    pose proof (image_iteration_attempts w prompt change sites_dir j s Hs1 Hs2) as T.
    destruct (ImageOpt.iteration w prompt change sites_dir j s) as [[[|]| |] s'];
      solve [exact T | destruct T].
  - intros j s Hs. exact Hs.
Qed.

(** X20: an image run makes one attempt more than it has received verdicts
    of fail.  Every attempt starts with a new download of the chosen image
    and, when the download succeeds, asks the image service for a new image:
    nothing of a rejected attempt is reused.  In a run that returns a
    dictionary the downloads are one more than the verdicts of fail; there
    is at most one generation for each download and at most one verdict for
    each generation. *)
Theorem image_run_attempts w url prompt fuel files res :
  let t := trace (snd (ImageOpt.run w url prompt fuel files)) in
  fst (ImageOpt.run w url prompt fuel files) = Done (Some res) ->
  count is_download t = S (count is_fail_verdict t)
  /\ (count is_verdict t <= count is_generation t <= count is_download t)%nat.
Proof.
  cbv zeta. norm_top.
  repeat (split_match; norm_top).
  all: intros E; try discriminate E.
  all: match goal with
       | H : while_true ?f (ImageOpt.iteration ?w ?pr ?ch ?sd) ?i ?st = _ |- _ =>
           let T := fresh "T" in
           pose proof (image_loop_attempts w pr ch sd f i st) as T;
           cbv zeta in T; rewrite H in T; clear H; proj_in T;
           unfold attempts_ok in T;
           specialize (T ltac:(count_events; lia) ltac:(count_events; reflexivity))
       end.
  all: subst; destruct T as (T1 & T2).
  all: count_events; lia.
Qed.

(** The run that is accepted at once: one download, one generation, one
    verdict, none of fail. *)
Lemma image_run_attempts_demo :
  let t := trace (snd (ImageOpt.run Demo.world_accepting Demo.www_shop_url
                         "prompt" 1 ∅)) in
  count is_download t = S (count is_fail_verdict t)
  /\ (count is_verdict t <= count is_generation t <= count is_download t)%nat.
Proof.
  apply (image_run_attempts Demo.world_accepting Demo.www_shop_url "prompt" 1 ∅
           (ImageOpt.mkImageResult "Brighter hero image"
              "https://shop.example.com/hero.png"
              (Some "https://raw.githubusercontent.com/acme/assets/main/uuid-0.png")
              (Some "full-page.png")
              (Some (ImageOpt.render_js_code "https://shop.example.com/hero.png"
                       (Some "https://raw.githubusercontent.com/acme/assets/main/uuid-0.png")))
              (Some "Looks right."))).
  vm_compute. reflexivity.
Defined.

(** ** A text run ends at the first verdict of pass *)

Section FirstPass.
Variable w : World.
Variable outs : nat -> JSOutput.
Variable verdicts : nat -> Evaluation.
Variable k : nat.
Hypothesis coder_answers :
  forall i items, (i <= k)%nat -> coder w i items = Returns (outs i).
Hypothesis evaluator_answers :
  forall i items, (i <= k)%nat -> evaluator w i items = Returns (verdicts i).
Hypothesis scripts_run : forall history js, js_throws w history js = false.
Hypothesis earlier_fail : forall i, (i < k)%nat -> score (verdicts i) <> "pass".
Hypothesis last_passes : score (verdicts k) = "pass".
Hypothesis few_attempts : (k <= 200)%nat.

Lemma text_iteration_rejected site_folder i (st : state TextOpt.txt_locals) :
  (i < k)%nat -> rejected_so_far outs i st ->
  exists st',
    TextOpt.iteration w site_folder i st = (Done Continue, st')
    /\ rejected_so_far outs (S i) st'.
Proof.
  intros Hi (Hv & Hev & Hc & Hvd & Hl).
  destruct st as [f [vw vh im ev] t [items cr rs shot]].
  cbv [page trace viewport_height evaluated] in Hv, Hev, Hc, Hvd, Hl. subst vh ev.
  pose proof (earlier_fail i Hi) as Hfail. apply String.eqb_neq in Hfail.
  norm_run. rewrite coder_answers by lia. norm_run.
  rewrite scripts_run. norm_run.
  rewrite (proj1 (scale_height_after (2 + i) ltac:(lia))). norm_run.
  rewrite evaluator_answers by lia. norm_run. rewrite Hfail. norm_run.
  eexists. split; [reflexivity|].
  unfold rejected_so_far. norm_run.
  split; [reflexivity|]. split; [now rewrite seq_S, map_app|].
  repeat split; count_steps; lia.
Qed.

Lemma text_iteration_accepted_at site_folder (st : state TextOpt.txt_locals) :
  rejected_so_far outs k st ->
  exists st',
    TextOpt.iteration w site_folder k st = (Done Break, st')
    /\ accepted_at w outs verdicts k st'.
Proof.
  intros (Hv & Hev & Hc & Hvd & Hl).
  destruct st as [f [vw vh im ev] t [items cr rs shot]].
  cbv [page trace viewport_height evaluated] in Hv, Hev, Hc, Hvd, Hl. subst vh ev.
  pose proof last_passes as Hpass. apply String.eqb_eq in Hpass.
  norm_run. rewrite coder_answers by lia. norm_run.
  rewrite scripts_run. norm_run.
  rewrite (proj1 (scale_height_after (2 + k) ltac:(lia))). norm_run.
  rewrite evaluator_answers by lia. norm_run. rewrite Hpass. norm_run.
  rewrite scripts_run. norm_run.
  rewrite (proj1 (scale_height_after (S (2 + k)) ltac:(lia))). norm_run.
  eexists. split; [reflexivity|].
  unfold accepted_at. norm_run.
  split; [reflexivity|]. split; [reflexivity|]. split; [reflexivity|].
  split; [reflexivity|]. split; [now rewrite seq_S, map_app|].
  repeat split; count_steps; lia.
Qed.

Lemma text_loop_first_pass site_folder n : forall i fuel
    (st : state TextOpt.txt_locals),
  (i + n = k)%nat -> (n < fuel)%nat -> rejected_so_far outs i st ->
  exists st',
    while_true fuel (TextOpt.iteration w site_folder) i st = (Done tt, st')
    /\ accepted_at w outs verdicts k st'.
Proof.
  induction n as [|n IH]; intros i fuel st Hi Hfuel Hst.
  - assert (i = k) by lia. subst i.
    destruct fuel as [|fuel]; [lia|]. cbn [while_true]. unfold bind.
    destruct (text_iteration_accepted_at site_folder st Hst) as (st' & E & H).
    rewrite E. eauto.
  - destruct fuel as [|fuel]; [lia|]. cbn [while_true]. unfold bind.
    destruct (text_iteration_rejected site_folder i st ltac:(lia) Hst)
      as (st' & E & H).
    rewrite E. apply IH; [lia|lia|exact H].
Qed.

(** X21: a text run ends at the first verdict of pass.  When the coder and
    the evaluator answer, the scripts run, the attempts before attempt [k]
    are rejected and attempt [k] is accepted (with [k] up to 200), every run
    with fuel for more than [k] iterations returns: it has called the coder
    [k + 1] times and received [k + 1] verdicts, it has evaluated each
    proposal once, in order, and the accepted one a second time, it has
    written one line to the log, and its dictionary is that of proposal [k]
    with the feedback of verdict [k] and the screenshot of the final page,
    taken after [k + 4] resizes of the viewport. *)
Theorem text_run_ends_at_first_pass url fuel files :
  (k < fuel)%nat ->
  let r := TextOpt.run w url fuel files in
  fst r = Done (TextOpt.mkTextResult
                  (js_change_description (outs k)) (feedback (verdicts k))
                  (png_of w (mkShot false (page (snd r)))) (script (outs k)))
  /\ viewport_height (page (snd r)) = height_after (4 + k)
  /\ evaluated (page (snd r))
     = (map (fun j => script (outs j)) (seq 0 (S k)) ++ [script (outs k)])%list
  /\ count is_coder_run (trace (snd r)) = S k
  /\ count is_verdict (trace (snd r)) = S k
  /\ count is_log_line (trace (snd r)) = 1%nat.
Proof.
  intros Hfuel. cbv zeta.
  norm_top.
  rewrite scale_800. norm_top. rewrite scale_880. norm_top.
  rewrite site_folder_truthy. norm_top.
  match goal with
  | |- context [while_true fuel ?body 0%nat ?st] =>
      destruct (text_loop_first_pass
                  ("sites/" +:+ Str.py_replace "www." "" (netloc w url)) k 0 fuel st
                  ltac:(lia) Hfuel
                  ltac:(repeat split; reflexivity))
        as (st' & E & (H1 & H2 & H3 & H4 & H5 & H6 & H7 & H8));
      rewrite E
  end.
  destruct st' as [f [vw vh im ev] t [items cr rs shot]].
  cbv [locals page trace viewport_height evaluated TextOpt.coder_result
       TextOpt.result TextOpt.final_screenshot] in H1, H2, H3, H4, H5, H6, H7, H8.
  subst. norm_top.
  split; [reflexivity|]. split; [reflexivity|]. split; [reflexivity|].
  repeat split; count_steps; lia.
Qed.
End FirstPass.

(** A first attempt that is accepted. *)
Lemma text_run_first_pass_demo :
  let r := TextOpt.run Demo.world_accepting Demo.www_shop_url 1 ∅ in
  fst r = Done (TextOpt.mkTextResult "Headline, attempt 1" "Looks right."
                  (png_of Demo.world_accepting (mkShot false (page (snd r))))
                  (script (Demo.three_proposals 0)))
  /\ viewport_height (page (snd r)) = height_after 4
  /\ evaluated (page (snd r))
     = [script (Demo.three_proposals 0); script (Demo.three_proposals 0)]
  /\ count is_coder_run (trace (snd r)) = 1%nat
  /\ count is_verdict (trace (snd r)) = 1%nat
  /\ count is_log_line (trace (snd r)) = 1%nat.
Proof.
  apply (text_run_ends_at_first_pass Demo.world_accepting Demo.three_proposals
           (fun _ => Demo.pass) 0).
  - reflexivity.
  - reflexivity.
  - reflexivity.
  - intros i Hi. lia.
  - reflexivity.
  - lia.
  - lia.
Defined.

(** ** Failures inside an attempt of the image run *)


(** ** An image run ends at the first verdict of pass *)





Section FirstImagePass.
Variable w : World.
Variable prompt : string.
Variable change : ImageChange.
Variable body png bytes : nat -> string.
Variable verdicts : nat -> Evaluation.
Variable k : nat.
Hypothesis downloads :
  forall i, (i <= k)%nat -> download w i (image_url change) = Returns (200, body i).
Hypothesis conversions :
  forall i, (i <= k)%nat -> to_png w i (body i) = Returns (png i).
Hypothesis generations :
  forall i, (i <= k)%nat -> images_edit w i prompt (png i) = Returns (bytes i).
Hypothesis urls_resolve : forall s, exists h, js_href w s = Returns h.
Hypothesis page_settles : forall i p, (i <= k)%nat -> settles w i p = Returns tt.
Hypothesis evaluator_answers :
  forall i items, (i <= k)%nat -> image_evaluator w i items = Returns (verdicts i).
Hypothesis earlier_fail : forall i, (i < k)%nat -> score (verdicts i) <> "pass".
Hypothesis last_passes : score (verdicts k) = "pass".




End FirstImagePass.

